(** * The extensible SQLite driver (src/3rdparty/sqlitex/sqlitedriver.cpp)

    A shallow embedding of the driver's result cursor ([SQLiteResult] and
    [SQLiteResultPrivate]), of the connection ([SQLiteDriver]) and of the
    static helpers of the file, followed by the properties of the
    specification that concern them.

    Conventions of the embedding:
    - a [QString] is a [string]: one Latin-1 code unit per character (every
      literal the driver compares against is a [QLatin1String]);
    - the SQLite C library is an interface ([Sqlite3], below): its state is
      threaded explicitly, and every call that the properties speak about
      is recorded in a call log;
    - a C++ operation with undefined behaviour (a [QVector] indexed out of
      range, a failed [Q_ASSERT]) makes the embedded function return
      [None]. *)

From Stdlib Require Import ZArith String Ascii List Bool Lia.
From stdpp Require Import base option list.
Import ListNotations.

Local Open Scope string_scope.
Local Open Scope list_scope.
Local Open Scope Z_scope.

(** ** QString *)

Module QStr.

Definition quote : ascii := Ascii.ascii_of_nat 34.
Definition dot : ascii := "."%char.

Definition isEmpty (s : string) : bool :=
  match s with EmptyString => true | _ => false end.

(** [QString::left(n)]: the [n] leftmost characters, the whole string when it
    is shorter. *)
Fixpoint left (n : nat) (s : string) : string :=
  match n, s with
  | S n', String c s' => String c (left n' s')
  | _, _ => EmptyString
  end.

Fixpoint drop (n : nat) (s : string) : string :=
  match n, s with
  | S n', String _ s' => drop n' s'
  | _, _ => s
  end.

(** [QString::right(n)]: the [n] rightmost characters. *)
Definition right (n : nat) (s : string) : string :=
  drop (String.length s - n) s.

(** [QString::mid(pos)]: from [pos] to the end; null when [pos] is past the
    end (a negative [pos] starts at the beginning). *)
Definition mid (pos : Z) (s : string) : string :=
  if Z.of_nat (String.length s) <? pos then EmptyString
  else drop (Z.to_nat pos) s.

(** [QString::replace(QChar before, QLatin1String after)]. *)
Fixpoint replace (before : ascii) (after : string) (s : string) : string :=
  match s with
  | EmptyString => EmptyString
  | String c s' =>
      if Ascii.eqb c before then String.append after (replace before after s')
      else String c (replace before after s')
  end.

(** [QString::remove(QChar)]. *)
Definition remove (c : ascii) (s : string) : string := replace c EmptyString s.

Definition prepend (c : ascii) (s : string) : string := String c s.
Definition append (c : ascii) (s : string) : string :=
  String.append s (String c EmptyString).

Definition startsWith (p s : string) : bool := String.prefix p s.

(** [QString::indexOf(QChar)]: the first position of the character, -1 when it
    does not occur. *)
Fixpoint indexOf (c : ascii) (s : string) : Z :=
  match s with
  | EmptyString => -1
  | String c' s' =>
      if Ascii.eqb c' c then 0
      else let i := indexOf c s' in if i <? 0 then -1 else i + 1
  end.

(** [QChar::toLower] on a Latin-1 code unit: A-Z and the accented capitals
    0xC0-0xDE (0xD7, the multiplication sign, apart) move up by 32. *)
Definition lowerChar (c : ascii) : ascii :=
  let n := Ascii.nat_of_ascii c in
  if ((65 <=? n) && (n <=? 90))%nat
     || ((192 <=? n) && (n <=? 222) && negb (n =? 215))%nat
  then Ascii.ascii_of_nat (n + 32) else c.

Fixpoint toLower (s : string) : string :=
  match s with
  | EmptyString => EmptyString
  | String c s' => String (lowerChar c) (toLower s')
  end.

(** [QChar::isSpace] on a Latin-1 code unit. *)
Definition isSpace (c : ascii) : bool :=
  let n := Ascii.nat_of_ascii c in
  ((9 <=? n) && (n <=? 13) || (n =? 32) || (n =? 133) || (n =? 160))%nat.

Fixpoint allSpace (s : string) : bool :=
  match s with
  | EmptyString => true
  | String c s' => isSpace c && allSpace s'
  end.

(** [s.trimmed().isEmpty()]: trimming strips the white space of both ends, so
    nothing is left exactly when every character is white space. *)
Definition trimmedIsEmpty (s : string) : bool := allSpace s.

End QStr.

(** ** The static helpers *)

(** [_q_escapeIdentifier], lines 52-61. *)
Definition _q_escapeIdentifier (identifier : string) : string :=
  let res := identifier in
  if negb (QStr.isEmpty identifier)
     && negb (String.eqb (QStr.left 1 identifier) (String QStr.quote EmptyString))
     && negb (String.eqb (QStr.right 1 identifier) (String QStr.quote EmptyString))
  then
    let res := QStr.replace QStr.quote (String QStr.quote (String QStr.quote EmptyString)) res in
    let res := QStr.append QStr.quote (QStr.prepend QStr.quote res) in
    let res := QStr.replace QStr.dot
                 (String QStr.quote (String QStr.dot (String QStr.quote EmptyString))) res in
    res
  else res.

(** The three replacements of lines 56-58, as one string. *)
Definition escaped (identifier : string) : string :=
  String QStr.quote
    (String.append
       (QStr.replace QStr.dot
          (String QStr.quote (String QStr.dot (String QStr.quote EmptyString)))
          (QStr.replace QStr.quote (String QStr.quote (String QStr.quote EmptyString))
             identifier))
       (String QStr.quote EmptyString)).

(** [QVariant::Type], the members the driver names, and the rest. *)
Inductive QVariantType : Type :=
| TInvalid | TInt | TUInt | TLongLong | TDouble | TByteArray | TString
| TOther (id : Z).

(** [qGetColumnType], lines 63-78. *)
Definition qGetColumnType (tpName : string) : QVariantType :=
  let typeName := QStr.toLower tpName in
  if String.eqb typeName "integer" || String.eqb typeName "int" then TInt
  else if String.eqb typeName "double" || String.eqb typeName "float"
          || String.eqb typeName "real" || QStr.startsWith "numeric" typeName
  then TDouble
  else if String.eqb typeName "blob" then TByteArray
  else TString.

(** ** Qt values *)

(** A [double] is carried as its IEEE-754 bit pattern: the driver only moves
    doubles between the engine and the caller. *)
Definition double : Type := Z.

(** [QVariant]. [QVNull t] is the null variant of type [t] ([QVariant(t)],
    or a variant that holds a null [QByteArray] or [QString]);
    [QVOther id text] is a value of any other type, with what its
    [toString()] gives. *)
Inductive QVariant : Type :=
| QVInvalid
| QVNull (t : QVariantType)
| QVInt (n : Z)
| QVUInt (n : Z)
| QVLongLong (n : Z)
| QVDouble (x : double)
| QVByteArray (bytes : string)
| QVString (s : string)
| QVOther (id : Z) (text : string).

Definition isNull (v : QVariant) : bool :=
  match v with QVInvalid | QVNull _ => true | _ => false end.

Definition type (v : QVariant) : QVariantType :=
  match v with
  | QVInvalid => TInvalid
  | QVNull t => t
  | QVInt _ => TInt
  | QVUInt _ => TUInt
  | QVLongLong _ => TLongLong
  | QVDouble _ => TDouble
  | QVByteArray _ => TByteArray
  | QVString _ => TString
  | QVOther id _ => TOther id
  end.

(** [SqlCachedResult::ValueCache]. *)
Abbreviation ValueCache := (list QVariant).

(** [QSqlError]. *)
Inductive ErrorType : Type :=
| NoError | ConnectionError | StatementError | TransactionError | UnknownError.

Record QSqlError : Type := mkQSqlError {
  driverText : string;
  databaseText : string;
  errorType : ErrorType;
  number : Z
}.

(** [QSqlError()]. *)
Definition noError : QSqlError := mkQSqlError EmptyString EmptyString NoError (-1).

Definition isValid (e : QSqlError) : bool :=
  match errorType e with NoError => false | _ => true end.

(** [QSqlField]; [newField] is the constructor [QSqlField(name, type)]. *)
Record QSqlField : Type := mkQSqlField {
  fieldName : string;
  fieldType : QVariantType;
  sqlType : Z;
  autoValue : bool;
  required : option bool;
  defaultValue : QVariant
}.

Definition newField (name : string) (t : QVariantType) : QSqlField :=
  mkQSqlField name t (-1) false None QVInvalid.

Definition setSqlType (n : Z) (f : QSqlField) : QSqlField :=
  mkQSqlField (fieldName f) (fieldType f) n (autoValue f) (required f) (defaultValue f).
Definition setAutoValue (b : bool) (f : QSqlField) : QSqlField :=
  mkQSqlField (fieldName f) (fieldType f) (sqlType f) b (required f) (defaultValue f).
Definition setRequired (b : bool) (f : QSqlField) : QSqlField :=
  mkQSqlField (fieldName f) (fieldType f) (sqlType f) (autoValue f) (Some b) (defaultValue f).
Definition setDefaultValue (v : QVariant) (f : QSqlField) : QSqlField :=
  mkQSqlField (fieldName f) (fieldType f) (sqlType f) (autoValue f) (required f) v.

(** [QSql::Location] and [QSql::NumericalPrecisionPolicy]. *)
Definition BeforeFirstRow : Z := -1.
Definition AfterLastRow : Z := -2.

Inductive NumericalPrecisionPolicy : Type :=
| LowPrecisionInt32 | LowPrecisionInt64 | LowPrecisionDouble | HighPrecision.

(** ** The SQLite C interface *)

(** Result codes and storage classes of sqlite3.h. *)
Definition SQLITE_OK : Z := 0.
Definition SQLITE_ERROR : Z := 1.
Definition SQLITE_BUSY : Z := 5.
Definition SQLITE_CONSTRAINT : Z := 19.
Definition SQLITE_MISUSE : Z := 21.
Definition SQLITE_ROW : Z := 100.
Definition SQLITE_DONE : Z := 101.

Definition SQLITE_INTEGER : Z := 1.
Definition SQLITE_FLOAT : Z := 2.
Definition SQLITE_TEXT : Z := 3.
Definition SQLITE_BLOB : Z := 4.
Definition SQLITE_NULL : Z := 5.

(** What one call of the [sqlite3_bind_*] family passes: the function and
    its value ([static] tells SQLITE_STATIC from SQLITE_TRANSIENT). *)
Inductive BindArg : Type :=
| BindNull
| BindBlob (bytes : string)
| BindInt (n : Z)
| BindDouble (x : double)
| BindInt64 (n : Z)
| BindText16 (s : string) (static : bool).

(** The part of the C API that the driver calls. Handles ([sqlite3 *],
    [sqlite3_stmt *]) are numbers, 0 the null pointer; [DB] is all the state
    behind them. [sqlite3_column_blob] gives the bytes of the BLOB
    ([sqlite3_column_bytes] of them), or [None] when it returns the null
    pointer, as the engine does for a BLOB of length zero. *)
Class Sqlite3 : Type := {
  DB : Type;
  sqlite3_prepare16_v2 : Z -> string -> DB -> Z * Z * option string * DB;
  sqlite3_reset : Z -> DB -> Z * DB;
  sqlite3_step : Z -> DB -> Z * DB;
  sqlite3_finalize : Z -> DB -> Z * DB;
  sqlite3_close : Z -> DB -> Z * DB;
  sqlite3_bind : Z -> Z -> BindArg -> DB -> Z * DB;
  sqlite3_bind_parameter_count : Z -> DB -> nat;
  sqlite3_column_count : Z -> DB -> nat;
  sqlite3_column_name16 : Z -> Z -> DB -> string;
  sqlite3_column_decltype16 : Z -> Z -> DB -> string;
  sqlite3_column_type : Z -> Z -> DB -> Z;
  sqlite3_column_blob : Z -> Z -> DB -> option string;
  sqlite3_column_int : Z -> Z -> DB -> Z;
  sqlite3_column_int64 : Z -> Z -> DB -> Z;
  sqlite3_column_double : Z -> Z -> DB -> double;
  sqlite3_column_text16 : Z -> Z -> DB -> string;
  sqlite3_errmsg16 : Z -> DB -> string
}.

(** The state of the base classes of a cursor: the members of [QSqlResult]
    that the driver reads and writes through plain accessors, and the
    private state [Cache] of [SqlCachedResult]. *)
Record SqlCachedResult (Cache : Type) : Type := mkBase {
  at_ : Z;
  isActive : bool;
  isSelect : bool;
  lastError : QSqlError;
  boundValues : list QVariant;
  numericalPrecisionPolicy : NumericalPrecisionPolicy;
  cache : Cache
}.
Arguments mkBase {Cache}.
Arguments at_ {Cache}.
Arguments isActive {Cache}.
Arguments isSelect {Cache}.
Arguments lastError {Cache}.
Arguments boundValues {Cache}.
Arguments numericalPrecisionPolicy {Cache}.
Arguments cache {Cache}.

(** What the driver uses of Qt beyond plain accessors:
    [QCoreApplication::translate], and the three methods of
    [SqlCachedResult] that it calls ([init], [cleanup], [clearValues]); their
    code is in another file, so they are left free to change the whole base
    state. [isIdentifierEscaped] and [stripDelimiters] are the methods of
    [QSqlDriver], for table names. *)
Class QtBase : Type := {
  translate : string -> string -> string;
  Cache : Type;
  base_init : nat -> SqlCachedResult Cache -> SqlCachedResult Cache;
  base_cleanup : SqlCachedResult Cache -> SqlCachedResult Cache;
  base_clearValues : SqlCachedResult Cache -> SqlCachedResult Cache;
  isIdentifierEscaped : string -> bool;
  stripDelimiters : string -> string
}.

(** The calls that are logged: those that change the engine's state
    (prepare, reset, step, finalize, bind, close) and the storage-class
    query.  The other accessors (column count, names, declared types, the
    readers of a cell, the error message) only read the state and are not
    logged. *)
Inductive Call : Type :=
| CallPrepare (access : Z) (query : string)
| CallReset (stmt : Z)
| CallStep (stmt : Z)
| CallFinalize (stmt : Z)
| CallBind (stmt : Z) (index : Z) (arg : BindArg)
| CallColumnType (stmt : Z) (column : Z)
| CallClose (access : Z).

(** ** The cursor: SQLiteResult and SQLiteResultPrivate *)

Section Driver.

Context `{engine : Sqlite3} `{qt : QtBase}.

(** The engine's state and the log of the calls made so far. *)
Record World : Type := mkWorld {
  db : DB;
  calls : list Call
}.

Definition call {A : Type} (c : Call) (f : DB -> A * DB) (w : World) : A * World :=
  let '(a, db') := f (db w) in (a, mkWorld db' (calls w ++ [c])).

Definition do_reset (stmt : Z) : World -> Z * World :=
  call (CallReset stmt) (sqlite3_reset stmt).
Definition do_step (stmt : Z) : World -> Z * World :=
  call (CallStep stmt) (sqlite3_step stmt).
Definition do_finalize (stmt : Z) : World -> Z * World :=
  call (CallFinalize stmt) (sqlite3_finalize stmt).
Definition do_close (access : Z) : World -> Z * World :=
  call (CallClose access) (sqlite3_close access).
Definition do_bind (stmt : Z) (index : Z) (arg : BindArg) : World -> Z * World :=
  call (CallBind stmt index arg) (sqlite3_bind stmt index arg).
Definition do_prepare (access : Z) (query : string)
  : World -> Z * Z * option string * World :=
  fun w => let '(res, stmt, pzTail, db') := sqlite3_prepare16_v2 access query (db w) in
           (res, stmt, pzTail, mkWorld db' (calls w ++ [CallPrepare access query])).
Definition do_column_type (stmt : Z) (i : Z) : World -> Z * World :=
  call (CallColumnType stmt i) (fun s => (sqlite3_column_type stmt i s, s)).

(** [SQLiteResultPrivate] (without the back pointer [q], which is the
    [SqlCachedResult] component of [SQLiteResult] below). *)
Record SQLiteResultPrivate : Type := mkPrivate {
  access : Z;
  stmt : Z;
  skippedStatus : bool;
  skipRow : bool;
  rInf : list QSqlField;
  firstRow : ValueCache
}.

Record SQLiteResult : Type := mkResult {
  d : SQLiteResultPrivate;
  q : SqlCachedResult Cache
}.

Definition set_stmt (v : Z) (p : SQLiteResultPrivate) : SQLiteResultPrivate :=
  mkPrivate (access p) v (skippedStatus p) (skipRow p) (rInf p) (firstRow p).
Definition set_skippedStatus (v : bool) (p : SQLiteResultPrivate) : SQLiteResultPrivate :=
  mkPrivate (access p) (stmt p) v (skipRow p) (rInf p) (firstRow p).
Definition set_skipRow (v : bool) (p : SQLiteResultPrivate) : SQLiteResultPrivate :=
  mkPrivate (access p) (stmt p) (skippedStatus p) v (rInf p) (firstRow p).
Definition set_rInf (v : list QSqlField) (p : SQLiteResultPrivate) : SQLiteResultPrivate :=
  mkPrivate (access p) (stmt p) (skippedStatus p) (skipRow p) v (firstRow p).
Definition set_firstRow (v : ValueCache) (p : SQLiteResultPrivate) : SQLiteResultPrivate :=
  mkPrivate (access p) (stmt p) (skippedStatus p) (skipRow p) (rInf p) v.

Definition setAt (v : Z) (b : SqlCachedResult Cache) : SqlCachedResult Cache :=
  mkBase v (isActive b) (isSelect b) (lastError b) (boundValues b)
         (numericalPrecisionPolicy b) (cache b).
Definition setActive (v : bool) (b : SqlCachedResult Cache) : SqlCachedResult Cache :=
  mkBase (at_ b) v (isSelect b) (lastError b) (boundValues b)
         (numericalPrecisionPolicy b) (cache b).
Definition setSelect (v : bool) (b : SqlCachedResult Cache) : SqlCachedResult Cache :=
  mkBase (at_ b) (isActive b) v (lastError b) (boundValues b)
         (numericalPrecisionPolicy b) (cache b).
Definition setLastError (v : QSqlError) (b : SqlCachedResult Cache) : SqlCachedResult Cache :=
  mkBase (at_ b) (isActive b) (isSelect b) v (boundValues b)
         (numericalPrecisionPolicy b) (cache b).

(** Updates of the two halves of a cursor. *)
Definition on_d (f : SQLiteResultPrivate -> SQLiteResultPrivate) (r : SQLiteResult)
  : SQLiteResult := mkResult (f (d r)) (q r).
Definition on_q (f : SqlCachedResult Cache -> SqlCachedResult Cache) (r : SQLiteResult)
  : SQLiteResult := mkResult (d r) (f (q r)).

(** [qMakeError], lines 80-86. *)
Definition qMakeError (access : Z) (descr : string) (t : ErrorType) (errorCode : Z)
    (w : World) : QSqlError :=
  mkQSqlError descr (sqlite3_errmsg16 access (db w)) t errorCode.

(** [SQLiteResultPrivate::finalize], lines 141-148. *)
Definition finalize (r : SQLiteResult) (w : World) : SQLiteResult * World :=
  if stmt (d r) =? 0 then (r, w)
  else
    let '(_, w) := do_finalize (stmt (d r)) w in
    (on_d (set_stmt 0) r, w).

(** [SQLiteResultPrivate::cleanup], lines 130-139. *)
Definition cleanup (r : SQLiteResult) (w : World) : SQLiteResult * World :=
  let '(r, w) := finalize r w in
  let r := on_d (set_rInf []) r in
  let r := on_d (set_skippedStatus false) r in
  let r := on_d (set_skipRow false) r in
  let r := on_q (setAt BeforeFirstRow) r in
  let r := on_q (setActive false) r in
  let r := on_q base_cleanup r in
  (r, w).

(** The vector that [fetchNext] receives by reference as [values]: [exec]
    passes the cursor's own [firstRow], [gotoNext] passes the caller's row. *)
Inductive Values : Type :=
| TheFirstRow
| CallerRow (row : ValueCache).

Definition contents (values : Values) (r : SQLiteResult) : ValueCache :=
  match values with
  | TheFirstRow => firstRow (d r)
  | CallerRow row => row
  end.

(** [v[i] = x] on a [QVector]: undefined out of range. *)
Definition vec_set (i : Z) (x : QVariant) (v : ValueCache) : option ValueCache :=
  if (0 <=? i) && (i <? Z.of_nat (length v)) then Some (<[Z.to_nat i := x]> v)
  else None.

(** [values[i] = x], through the reference. *)
Definition assign (values : Values) (i : Z) (x : QVariant) (r : SQLiteResult)
  : option (Values * SQLiteResult) :=
  match values with
  | TheFirstRow =>
      v ← vec_set i x (firstRow (d r)); Some (TheFirstRow, on_d (set_firstRow v) r)
  | CallerRow row =>
      v ← vec_set i x row; Some (CallerRow v, r)
  end.

(** [QSqlRecord::isEmpty]. *)
Definition isEmptyRecord (rec : list QSqlField) : bool :=
  match rec with [] => true | _ => false end.

(** The field type for a storage class (the [switch (stp)] of
    [initColumns]). *)
Definition typeOfStorageClass (stp : Z) : QVariantType :=
  if stp =? SQLITE_INTEGER then TInt
  else if stp =? SQLITE_FLOAT then TDouble
  else if stp =? SQLITE_BLOB then TByteArray
  else if stp =? SQLITE_TEXT then TString
  else TInvalid.

(** The body of the loop of [initColumns], for the columns [cols]. *)
Fixpoint initColumns_loop (emptyResultset : bool) (cols : list nat)
    (r : SQLiteResult) (w : World) : SQLiteResult * World :=
  match cols with
  | [] => (r, w)
  | i :: cols' =>
      let i' := Z.of_nat i in
      let colName :=
        QStr.remove QStr.quote (sqlite3_column_name16 (stmt (d r)) i' (db w)) in
      let typeName := sqlite3_column_decltype16 (stmt (d r)) i' (db w) in
      let '(stp, w) :=
        if emptyResultset then (-1, w) else do_column_type (stmt (d r)) i' w in
      let fieldType :=
        if negb (QStr.isEmpty typeName) then qGetColumnType typeName
        else typeOfStorageClass stp in
      let fld := setSqlType stp (newField colName fieldType) in
      let r := on_d (fun p => set_rInf (rInf p ++ [fld]) p) r in
      initColumns_loop emptyResultset cols' r w
  end.

(** [SQLiteResultPrivate::initColumns], lines 150-200. *)
Definition initColumns (emptyResultset : bool) (r : SQLiteResult) (w : World)
  : SQLiteResult * World :=
  let nCols := sqlite3_column_count (stmt (d r)) (db w) in
  if Z.of_nat nCols <=? 0 then (r, w)
  else
    let r := on_q (base_init nCols) r in
    initColumns_loop emptyResultset (seq 0 nCols) r w.

(** The value of column [i] of the current row (the [switch] of lines
    239-271). *)
Definition columnValue (stmt : Z) (i : Z) (policy : NumericalPrecisionPolicy)
    (w : World) : QVariant * World :=
  let '(t, w) := do_column_type stmt i w in
  let v :=
    if t =? SQLITE_BLOB then
      (* QByteArray(data, size) is the null byte array when data is null *)
      match sqlite3_column_blob stmt i (db w) with
      | Some bytes => QVByteArray bytes
      | None => QVNull TByteArray
      end
    else if t =? SQLITE_INTEGER then QVLongLong (sqlite3_column_int64 stmt i (db w))
    else if t =? SQLITE_FLOAT then
      match policy with
      | LowPrecisionInt32 => QVInt (sqlite3_column_int stmt i (db w))
      | LowPrecisionInt64 => QVLongLong (sqlite3_column_int64 stmt i (db w))
      | LowPrecisionDouble | HighPrecision =>
          QVDouble (sqlite3_column_double stmt i (db w))
      end
    else if t =? SQLITE_NULL then QVNull TString
    else QVString (sqlite3_column_text16 stmt i (db w)) in
  (v, w).

(** The loop of lines 238-272, for the columns [cols]. *)
Fixpoint fetchRow (values : Values) (idx : Z) (cols : list nat)
    (r : SQLiteResult) (w : World) : option (Values * SQLiteResult * World) :=
  match cols with
  | [] => Some (values, r, w)
  | i :: cols' =>
      let '(v, w) :=
        columnValue (stmt (d r)) (Z.of_nat i) (numericalPrecisionPolicy (q r)) w in
      '(values, r) ← assign values (Z.of_nat i + idx) v r;
      fetchRow values idx cols' r w
  end.

(** The loop of lines 211-212: [values[i] = firstRow[i]]. *)
Fixpoint copyFirstRow (values : Values) (cols : list nat) (r : SQLiteResult)
  : option (Values * SQLiteResult) :=
  match cols with
  | [] => Some (values, r)
  | i :: cols' =>
      x ← firstRow (d r) !! i;
      '(values, r) ← assign values (Z.of_nat i) x r;
      copyFirstRow values cols' r
  end.

(** [SQLiteResultPrivate::fetchNext], lines 202-301. *)
Definition fetchNext (values : Values) (idx : Z) (initialFetch : bool)
    (r : SQLiteResult) (w : World) : option (bool * Values * SQLiteResult * World) :=
  if skipRow (d r) then
    (* already fetched *)
    if initialFetch then None (* Q_ASSERT(!initialFetch) *)
    else
      let r := on_d (set_skipRow false) r in
      '(values, r) ← copyFirstRow values (seq 0 (length (firstRow (d r)))) r;
      Some (skippedStatus (d r), values, r, w)
  else
    let r := on_d (set_skipRow initialFetch) r in
    let r :=
      if initialFetch then
        on_d (set_firstRow
                (replicate (sqlite3_column_count (stmt (d r)) (db w)) QVInvalid)) r
      else r in
    if stmt (d r) =? 0 then
      let r := on_q (setLastError
                       (mkQSqlError (translate "SQLiteResult" "Unable to fetch row")
                                    (translate "SQLiteResult" "No query")
                                    ConnectionError (-1))) r in
      let r := on_q (setAt AfterLastRow) r in
      Some (false, values, r, w)
    else
      let '(res, w) := do_step (stmt (d r)) w in
      if res =? SQLITE_ROW then
        (* check to see if should fill out columns *)
        let '(r, w) := if isEmptyRecord (rInf (d r)) then initColumns false r w
                       else (r, w) in
        if (idx <? 0) && negb initialFetch then Some (true, values, r, w)
        else
          '(values, r, w) ← fetchRow values idx (seq 0 (length (rInf (d r)))) r w;
          Some (true, values, r, w)
      else if res =? SQLITE_DONE then
        let '(r, w) := if isEmptyRecord (rInf (d r)) then initColumns true r w
                       else (r, w) in
        let r := on_q (setAt AfterLastRow) r in
        let '(_, w) := do_reset (stmt (d r)) w in
        Some (false, values, r, w)
      else if (res =? SQLITE_CONSTRAINT) || (res =? SQLITE_ERROR) then
        (* SQLITE_ERROR is a generic error code and we must call sqlite3_reset()
           to get the specific error message. *)
        let '(res, w) := do_reset (stmt (d r)) w in
        let r := on_q (setLastError
                         (qMakeError (access (d r))
                                     (translate "SQLiteResult" "Unable to fetch row")
                                     ConnectionError res w)) r in
        let r := on_q (setAt AfterLastRow) r in
        Some (false, values, r, w)
      else
        (* something wrong, don't get col info, but still return false *)
        let r := on_q (setLastError
                         (qMakeError (access (d r))
                                     (translate "SQLiteResult" "Unable to fetch row")
                                     ConnectionError res w)) r in
        let '(_, w) := do_reset (stmt (d r)) w in
        let r := on_q (setAt AfterLastRow) r in
        Some (false, values, r, w).

(** The cursor as [fetchNext] leaves it before it looks at the statement
    (lines 215-220). *)
Definition beforeStep (initialFetch : bool) (r : SQLiteResult) (w : World)
  : SQLiteResult :=
  let r := on_d (set_skipRow initialFetch) r in
  if initialFetch then
    on_d (set_firstRow
            (replicate (sqlite3_column_count (stmt (d r)) (db w)) QVInvalid)) r
  else r.

(** The field that [initColumns] makes of column [i] when the result set is
    empty: its type comes from the declared type name alone, and the storage
    class recorded is -1. *)
Definition declaredField (stmt : Z) (s : DB) (i : nat) : QSqlField :=
  let typeName := sqlite3_column_decltype16 stmt (Z.of_nat i) s in
  setSqlType (-1)
    (newField (QStr.remove QStr.quote (sqlite3_column_name16 stmt (Z.of_nat i) s))
              (if QStr.isEmpty typeName then TInvalid else qGetColumnType typeName)).

(** The cursor as [exec] leaves it before it resets the statement (lines
    385-389). *)
Definition beforeReset (r : SQLiteResult) : SQLiteResult :=
  let r := on_d (set_skippedStatus false) r in
  let r := on_d (set_skipRow false) r in
  let r := on_d (set_rInf []) r in
  let r := on_q base_clearValues r in
  on_q (setLastError noError) r.

(** [SQLiteResult::gotoNext], lines 460-463; the caller's row comes back
    updated. *)
Definition gotoNext (row : ValueCache) (idx : Z) (r : SQLiteResult) (w : World)
  : option (bool * ValueCache * SQLiteResult * World) :=
  '(res, values, r, w) ← fetchNext (CallerRow row) idx false r w;
  Some (res, contents values r, r, w).

(** The state of the [QSqlDriver] base class. *)
Record QSqlDriver : Type := mkQSqlDriver {
  isOpen : bool;
  isOpenError : bool;
  driverLastError : QSqlError
}.

(** [SQLiteResult::prepare], lines 345-379; [driver] is what [driver()]
    points to, [None] for a null pointer. *)
Definition prepare (driver : option QSqlDriver) (query : string)
    (r : SQLiteResult) (w : World) : bool * SQLiteResult * World :=
  if match driver with
     | None => true
     | Some drv => negb (isOpen drv) || isOpenError drv
     end
  then (false, r, w)
  else
    let '(r, w) := cleanup r w in
    let r := on_q (setSelect false) r in
    let '(res, stmt', pzTail, w) := do_prepare (access (d r)) query w in
    let r := on_d (set_stmt stmt') r in
    if negb (res =? SQLITE_OK) then
      let r := on_q (setLastError
                       (qMakeError (access (d r))
                          (translate "SQLiteResult" "Unable to execute statement")
                          StatementError res w)) r in
      let '(r, w) := finalize r w in
      (false, r, w)
    else if match pzTail with
            | Some tail => negb (QStr.trimmedIsEmpty tail)
            | None => false
            end
    then
      let r := on_q (setLastError
                       (qMakeError (access (d r))
                          (translate "SQLiteResult"
                                     "Unable to execute multiple statements at a time")
                          StatementError SQLITE_MISUSE w)) r in
      let '(r, w) := finalize r w in
      (false, r, w)
    else (true, r, w).

(** What [exec] binds for a value (lines 404-436): the [sqlite3_bind_*]
    function chosen and its argument. *)
Definition bindArg (value : QVariant) : BindArg :=
  if isNull value then BindNull
  else
    match value with
    | QVByteArray ba => BindBlob ba
    | QVInt n => BindInt n
    | QVDouble x => BindDouble x
    | QVUInt n | QVLongLong n => BindInt64 n
    | QVString str => BindText16 str true
    | QVOther _ str => BindText16 str false
    | QVInvalid | QVNull _ => BindNull
    end.

(** The loop of lines 400-443 from index [i] on, over the values left;
    [false] when a bind failed (and [exec] returns false). *)
Fixpoint bindValues (i : Z) (values : list QVariant) (r : SQLiteResult) (w : World)
  : bool * SQLiteResult * World :=
  match values with
  | [] => (true, r, w)
  | value :: values' =>
      let '(res, w) := do_bind (stmt (d r)) (i + 1) (bindArg value) w in
      if negb (res =? SQLITE_OK) then
        let r := on_q (setLastError
                         (qMakeError (access (d r))
                            (translate "SQLiteResult" "Unable to bind parameters")
                            StatementError res w)) r in
        let '(r, w) := finalize r w in
        (false, r, w)
      else bindValues (i + 1) values' r w
  end.

(** Lines 381-448 of [SQLiteResult::exec]: the reset and the binding of the
    parameters; [false] when [exec] returns false there. *)
Definition exec_rebind (r : SQLiteResult) (w : World) : bool * SQLiteResult * World :=
  let values := boundValues (q r) in
  let r := on_d (set_skippedStatus false) r in
  let r := on_d (set_skipRow false) r in
  let r := on_d (set_rInf []) r in
  let r := on_q base_clearValues r in
  let r := on_q (setLastError noError) r in
  let '(res, w) := do_reset (stmt (d r)) w in
  if negb (res =? SQLITE_OK) then
    let r := on_q (setLastError
                     (qMakeError (access (d r))
                        (translate "SQLiteResult" "Unable to reset statement")
                        StatementError res w)) r in
    let '(r, w) := finalize r w in
    (false, r, w)
  else
    let paramCount := sqlite3_bind_parameter_count (stmt (d r)) (db w) in
    if (paramCount =? length values)%nat then bindValues 0 values r w
    else
      let r := on_q (setLastError
                       (mkQSqlError (translate "SQLiteResult" "Parameter count mismatch")
                                    EmptyString StatementError (-1))) r in
      (false, r, w).

(** Lines 449-457 of [SQLiteResult::exec]: the lookahead fetch. *)
Definition exec_lookahead (r : SQLiteResult) (w : World)
  : option (bool * SQLiteResult * World) :=
  '(status, _, r, w) ← fetchNext TheFirstRow 0 true r w;
  let r := on_d (set_skippedStatus status) r in
  if isValid (lastError (q r)) then
    let r := on_q (setSelect false) r in
    let r := on_q (setActive false) r in
    Some (false, r, w)
  else
    let r := on_q (setSelect (negb (isEmptyRecord (rInf (d r))))) r in
    let r := on_q (setActive true) r in
    Some (true, r, w).

(** [SQLiteResult::exec], lines 381-458. *)
Definition exec (r : SQLiteResult) (w : World) : option (bool * SQLiteResult * World) :=
  let '(ok, r, w) := exec_rebind r w in
  if ok then exec_lookahead r w else Some (false, r, w).

(** ** The connection: SQLiteDriver *)

(** [SQLiteDriver] with its [SQLiteDriverPrivate]: the native handle and the
    cursors that the connection tracks. *)
Record SQLiteDriver : Type := mkDriver {
  base : QSqlDriver;
  driverAccess : Z;
  results : list SQLiteResult
}.

(** The [foreach] of lines 613-614. *)
Fixpoint finalizeAll (rs : list SQLiteResult) (w : World)
  : list SQLiteResult * World :=
  match rs with
  | [] => ([], w)
  | result :: rs' =>
      let '(result, w) := finalize result w in
      let '(rs', w) := finalizeAll rs' w in
      (result :: rs', w)
  end.

(** [SQLiteDriver::close], lines 610-623. *)
Definition close (s : SQLiteDriver) (w : World) : SQLiteDriver * World :=
  if isOpen (base s) then
    let '(rs, w) := finalizeAll (results s) w in
    let '(res, w) := do_close (driverAccess s) w in
    let err :=
      if negb (res =? SQLITE_OK) then
        qMakeError (driverAccess s) (translate "SQLiteDriver" "Error closing database")
                   ConnectionError (-1) w
      else driverLastError (base s) in
    (mkDriver (mkQSqlDriver false false err) 0 rs, w)
  else (s, w).

(** [SQLiteDriver::escapeIdentifier], lines 770-774. *)
Definition escapeIdentifier (identifier : string) : string :=
  _q_escapeIdentifier identifier.

(** What [qGetTableInfo] reads of a row of PRAGMA table_info:
    [q.value(1).toString()], [q.value(2).toString()], [q.value(3).toInt()],
    [q.value(4)] and [q.value(5).toInt()]. *)
Record TableInfoRow : Type := mkTableInfoRow {
  ti_name : string;
  ti_type : string;
  ti_notnull : Z;
  ti_dflt_value : QVariant;
  ti_pk : Z
}.

(** The query text of line 717. *)
Definition tableInfoQuery (tableName : string) : string :=
  let indexOfSeparator := QStr.indexOf QStr.dot tableName in
  let '(schema, table) :=
    if indexOfSeparator >? -1 then
      (QStr.append QStr.dot (QStr.left (Z.to_nat indexOfSeparator) tableName),
       QStr.mid (indexOfSeparator + 1) tableName)
    else (EmptyString, tableName) in
  String.append "PRAGMA "
    (String.append schema
       (String.append "table_info ("
          (String.append (_q_escapeIdentifier table) ")"))).

(** The field that lines 724-731 build for a row. *)
Definition fieldOfRow (row : TableInfoRow) : QSqlField :=
  let isPk := negb (ti_pk row =? 0) in
  let typeName := QStr.toLower (ti_type row) in
  let fld := newField (ti_name row) (qGetColumnType typeName) in
  let fld :=
    if isPk && String.eqb typeName "integer"
    then
      (* INTEGER PRIMARY KEY fields are auto-generated in sqlite
         INT PRIMARY KEY is not the same as INTEGER PRIMARY KEY! *)
      setAutoValue true fld
    else fld in
  let fld := setRequired (negb (ti_notnull row =? 0)) fld in
  setDefaultValue (ti_dflt_value row) fld.

(** The [while (q.next())] loop of lines 720-733 over the rows left. *)
Fixpoint tableInfoLoop (onlyPIndex : bool) (rows : list TableInfoRow)
    (ind : list QSqlField) : list QSqlField :=
  match rows with
  | [] => ind
  | row :: rows' =>
      let isPk := negb (ti_pk row =? 0) in
      if onlyPIndex && negb isPk then tableInfoLoop onlyPIndex rows' ind
      else tableInfoLoop onlyPIndex rows' (ind ++ [fieldOfRow row])
  end.

(** [qGetTableInfo], lines 708-735. [query] stands for the [QSqlQuery]: the
    rows that [q.next()] steps through once [q.exec] ran the text (none when
    it failed). *)
Definition qGetTableInfo (query : string -> list TableInfoRow) (tableName : string)
    (onlyPIndex : bool) : list QSqlField :=
  tableInfoLoop onlyPIndex (query (tableInfoQuery tableName)) [].

(** [SQLiteDriver::primaryIndex], lines 737-749. *)
Definition primaryIndex (s : SQLiteDriver) (query : string -> list TableInfoRow)
    (tblname : string) : list QSqlField :=
  if negb (isOpen (base s)) then []
  else
    let table :=
      if isIdentifierEscaped tblname then stripDelimiters tblname else tblname in
    qGetTableInfo query table true.

(** [SQLiteDriver::record], lines 751-763. *)
Definition record (s : SQLiteDriver) (query : string -> list TableInfoRow)
    (tbl : string) : list QSqlField :=
  if negb (isOpen (base s)) then []
  else
    let table := if isIdentifierEscaped tbl then stripDelimiters tbl else tbl in
    qGetTableInfo query table false.

(** [SQLiteResult::reset], lines 338-343. *)
Definition reset (driver : option QSqlDriver) (query : string)
    (r : SQLiteResult) (w : World) : option (bool * SQLiteResult * World) :=
  let '(ok, r, w) := prepare driver query r w in
  if negb ok then Some (false, r, w) else exec r w.

(** [SQLiteResult::record], lines 485-490. *)
Definition resultRecord (r : SQLiteResult) : list QSqlField :=
  if negb (isActive (q r)) || negb (isSelect (q r)) then [] else rInf (d r).

(** [SQLiteResult::detachFromResultSet], lines 493-497. *)
Definition detachFromResultSet (r : SQLiteResult) (w : World) : World :=
  if negb (stmt (d r) =? 0) then snd (do_reset (stmt (d r)) w) else w.

(** The bind calls that the loop of lines 400-443 makes for [values] from
    index [i] on when none fails. *)
Fixpoint bindCalls (stmt : Z) (i : Z) (values : list QVariant) : list Call :=
  match values with
  | [] => []
  | value :: values' =>
      CallBind stmt (i + 1) (bindArg value) :: bindCalls stmt (i + 1) values'
  end.

(** The engine state after the binds of [values] at the positions [i + 1],
    [i + 2], ... from the state [s] on, when each of them returns SQLITE_OK;
    [None] when one of them does not. *)
Fixpoint bindAll (stmt : Z) (i : Z) (values : list QVariant) (s : DB) : option DB :=
  match values with
  | [] => Some s
  | value :: values' =>
      let '(res, s) := sqlite3_bind stmt (i + 1) (bindArg value) s in
      if res =? SQLITE_OK then bindAll stmt (i + 1) values' s else None
  end.

(** The value that lines 239-271 read for column [i] in the engine state
    [s]. *)
Definition cellValue (stmt : Z) (policy : NumericalPrecisionPolicy) (s : DB) (i : nat)
  : QVariant :=
  fst (columnValue stmt (Z.of_nat i) policy (mkWorld s [])).

(** The field that [initColumns] makes of column [i] of a row (lines
    159-198, with a result set that is not empty). *)
Definition columnField (stmt : Z) (s : DB) (i : nat) : QSqlField :=
  let typeName := sqlite3_column_decltype16 stmt (Z.of_nat i) s in
  let stp := sqlite3_column_type stmt (Z.of_nat i) s in
  setSqlType stp
    (newField (QStr.remove QStr.quote (sqlite3_column_name16 stmt (Z.of_nat i) s))
              (if negb (QStr.isEmpty typeName) then qGetColumnType typeName
               else typeOfStorageClass stp)).

End Driver.

(** ** A scripted engine

    A test double of the C interface: [sqlite3_step] returns the scripted
    result codes one after the other (SQLITE_DONE once they are used up),
    the other calls return what the script says, and the binds are recorded;
    the bind of a BLOB of more than 8 bytes is refused with SQLITE_TOOBIG. *)

Module Stub.

Definition SQLITE_TOOBIG : Z := 18.

Definition tooBig (arg : BindArg) : bool :=
  match arg with
  | BindBlob bytes => (8 <? String.length bytes)%nat
  | _ => false
  end.

Record StubDB : Type := mkStub {
  steps : list Z;                      (* what the next steps return *)
  resetCode : Z;                       (* what sqlite3_reset returns *)
  badStmt : Z;                         (* the statement whose finalize fails *)
  closeCode : Z;                       (* what sqlite3_close returns *)
  params : nat;                        (* the placeholders of a statement *)
  columns : list (string * string);    (* name and declared type *)
  row : list (Z * Z);                  (* storage class and integer value *)
  bound : list (Z * BindArg);          (* the slots bound so far *)
  errmsg : string
}.

Definition set_steps (v : list Z) (s : StubDB) : StubDB :=
  mkStub v (resetCode s) (badStmt s) (closeCode s) (params s) (columns s) (row s)
         (bound s) (errmsg s).
Definition set_bound (v : list (Z * BindArg)) (s : StubDB) : StubDB :=
  mkStub (steps s) (resetCode s) (badStmt s) (closeCode s) (params s) (columns s)
         (row s) v (errmsg s).

Definition column (i : Z) (s : StubDB) : string * string :=
  nth (Z.to_nat i) (columns s) (EmptyString, EmptyString).
Definition cell (i : Z) (s : StubDB) : Z * Z :=
  nth (Z.to_nat i) (row s) (SQLITE_NULL, 0).

#[export] Instance engine : Sqlite3 := {|
  DB := StubDB;
  sqlite3_prepare16_v2 := fun _ _ s => (SQLITE_OK, 1, None, s);
  sqlite3_reset := fun _ s => (resetCode s, s);
  sqlite3_step := fun _ s =>
    match steps s with
    | [] => (SQLITE_DONE, s)
    | rc :: rest => (rc, set_steps rest s)
    end;
  sqlite3_finalize := fun stmt s =>
    (if stmt =? badStmt s then SQLITE_ERROR else SQLITE_OK, s);
  sqlite3_close := fun _ s => (closeCode s, s);
  sqlite3_bind := fun _ i arg s =>
    if tooBig arg then (SQLITE_TOOBIG, s)
    else (SQLITE_OK, set_bound (bound s ++ [(i, arg)]) s);
  sqlite3_bind_parameter_count := fun _ s => params s;
  sqlite3_column_count := fun _ s => length (columns s);
  sqlite3_column_name16 := fun _ i s => fst (column i s);
  sqlite3_column_decltype16 := fun _ i s => snd (column i s);
  sqlite3_column_type := fun _ i s => fst (cell i s);
  sqlite3_column_blob := fun _ _ _ => None;
  sqlite3_column_int := fun _ i s => snd (cell i s);
  sqlite3_column_int64 := fun _ i s => snd (cell i s);
  sqlite3_column_double := fun _ i s => snd (cell i s);
  sqlite3_column_text16 := fun _ _ _ => EmptyString;
  sqlite3_errmsg16 := fun _ s => errmsg s
|}.

(** No translator installed, a base class without state of its own, and the
    [QSqlDriver] defaults for delimited names. *)
#[export] Instance qt : QtBase := {|
  translate := fun _ sourceText => sourceText;
  Cache := unit;
  base_init := fun _ b => b;
  base_cleanup := fun b => b;
  base_clearValues := fun b => b;
  isIdentifierEscaped := fun identifier =>
    (2 <? Z.of_nat (String.length identifier))
    && String.eqb (QStr.left 1 identifier) (String QStr.quote EmptyString)
    && String.eqb (QStr.right 1 identifier) (String QStr.quote EmptyString);
  stripDelimiters := fun identifier =>
    QStr.left (String.length identifier - 2) (QStr.mid 1 identifier)
|}.

(** A cursor on statement [stmt] with the bound values [values]. *)
Definition cursor (stmt : Z) (values : list QVariant) : SQLiteResult :=
  mkResult (mkPrivate 1 stmt false false [] [])
           (mkBase BeforeFirstRow false false noError values LowPrecisionDouble tt).

(** An engine holding a statement with two columns declared INTEGER and TEXT
    and [n] placeholders, whose steps return [script]. *)
Definition database (script : list Z) (n : nat) : StubDB :=
  mkStub script SQLITE_OK 0 SQLITE_OK n
         [("id", "INTEGER"); ("title", "TEXT")]
         [(SQLITE_INTEGER, 7); (SQLITE_TEXT, 0)] [] "stub".

(** The same engine, with a reset that fails and two placeholders. *)
Definition failingReset : StubDB :=
  mkStub [] SQLITE_ERROR 0 SQLITE_OK 2
         [("id", "INTEGER"); ("title", "TEXT")]
         [(SQLITE_INTEGER, 7); (SQLITE_TEXT, 0)] [] "stub".

Definition world (s : StubDB) : World := mkWorld s [].

(** The worlds of the examples: a statement with one row, one without rows,
    one with two placeholders, and one whose step violates a constraint. *)
Definition oneRow : World := world (database [SQLITE_ROW] 0).
Definition noRow : World := world (database [] 0).
Definition twoPlaceholders : World := world (database [] 2).
Definition constraintViolation : World := world (database [SQLITE_CONSTRAINT] 0).

(** A cursor on statement [stmt] whose lookahead is pending: a row was
    found, and it holds 7 and an empty text. *)
Definition pending (stmt : Z) : SQLiteResult :=
  mkResult (mkPrivate 1 stmt true true [] [QVLongLong 7; QVString EmptyString])
           (mkBase BeforeFirstRow true true noError [] LowPrecisionDouble tt).

(** A driver that is not open. *)
Definition closedDriver : QSqlDriver := mkQSqlDriver false false noError.

(** An open connection that tracks three cursors, on the statements 1, 2
    and 3, and an engine on which the finalize of statement 2 and the close
    fail. *)
Definition connection : SQLiteDriver :=
  mkDriver (mkQSqlDriver true false noError) 1 [cursor 1 []; cursor 2 []; cursor 3 []].

Definition failingClose : StubDB :=
  mkStub [] SQLITE_OK 2 SQLITE_BUSY 0 [] [] [] "unable to close".

End Stub.

(** ** Opening a connection *)

Module QStrList.

(** [QString::split(QChar)], empty parts kept. *)
Fixpoint split (sep : ascii) (s : string) : list string :=
  match s with
  | EmptyString => [EmptyString]
  | String c s' =>
      if Ascii.eqb c sep then EmptyString :: split sep s'
      else match split sep s' with
           | part :: parts => String c part :: parts
           | [] => [String c EmptyString]
           end
  end.

(** Whether a character occurs in a string. *)
Fixpoint occurs (c : ascii) (s : string) : bool :=
  match s with
  | EmptyString => false
  | String c' s' => Ascii.eqb c' c || occurs c s'
  end.

End QStrList.

Definition SQLITE_OPEN_READONLY : Z := 1.
Definition SQLITE_OPEN_READWRITE : Z := 2.
Definition SQLITE_OPEN_CREATE : Z := 4.

(** The rest of the C API, for [open] and [lastInsertId], with the
    extension hook of sqliteextension.h and the two conversions of Qt that
    [open] uses: [QString::toInt] ([None] when it reports a failure) and
    [QString::toUtf8]. *)
Class Sqlite3More `{engine : Sqlite3} : Type := {
  sqlite3_enable_shared_cache : bool -> DB -> DB;
  sqlite3_open_v2 : string -> Z -> DB -> Z * Z * DB;
  sqlite3_busy_timeout : Z -> Z -> DB -> DB;
  sqlite3_last_insert_rowid : Z -> DB -> Z;
  installSQLiteExtension : Z -> DB -> DB;
  toInt : string -> option Z;
  toUtf8 : string -> string
}.

(** The three settings that [open] reads from the connection options. *)
Record Options : Type := mkOptions {
  sharedCache : bool;
  openMode : Z;
  timeOut : Z
}.

Section Opening.

Context `{more : Sqlite3More} `{qt : QtBase}.

(** The body of the [foreach] of lines 578-589. *)
Definition applyOption (o : Options) (option : string) : Options :=
  let o :=
    if QStr.startsWith "QSQLITE_BUSY_TIMEOUT=" option then
      match toInt (QStr.mid 21 option) with
      | Some nt => mkOptions (sharedCache o) (openMode o) nt
      | None => o
      end
    else o in
  let o :=
    if String.eqb option "QSQLITE_OPEN_READONLY"
    then mkOptions (sharedCache o) SQLITE_OPEN_READONLY (timeOut o)
    else o in
  if String.eqb option "QSQLITE_ENABLE_SHARED_CACHE"
  then mkOptions true (openMode o) (timeOut o)
  else o.

(** The timeout that an option sets, if it sets one (lines 579-584). *)
Definition timeoutOf (opt : string) : option Z :=
  if QStr.startsWith "QSQLITE_BUSY_TIMEOUT=" opt then toInt (QStr.mid 21 opt)
  else None.

(** Lines 575-589 of [SQLiteDriver::open]. *)
Definition parseOptions (conOpts : string) : Options :=
  let opts := QStrList.split ";"%char (QStr.remove " "%char conOpts) in
  fold_left applyOption opts
            (mkOptions false (Z.lor SQLITE_OPEN_READWRITE SQLITE_OPEN_CREATE) 5000).

(** [SQLiteDriver::open], lines 567-608. *)
Definition open (name : string) (conOpts : string) (s : SQLiteDriver) (w : World)
  : bool * SQLiteDriver * World :=
  let '(s, w) := if isOpen (base s) then close s w else (s, w) in
  if QStr.isEmpty name then (false, s, w)
  else
    let o := parseOptions conOpts in
    let s0 := sqlite3_enable_shared_cache (sharedCache o) (db w) in
    let '(res, handle, s1) := sqlite3_open_v2 (toUtf8 name) (openMode o) s0 in
    if res =? SQLITE_OK then
      let s2 := sqlite3_busy_timeout handle (timeOut o) s1 in
      let s3 := installSQLiteExtension handle s2 in
      (true,
       mkDriver (mkQSqlDriver true false (driverLastError (base s))) handle (results s),
       mkWorld s3 (calls w))
    else
      let err := qMakeError handle (translate "SQLiteDriver" "Error opening database")
                            ConnectionError (-1) (mkWorld s1 (calls w)) in
      (false,
       mkDriver (mkQSqlDriver (isOpen (base s)) true err) handle (results s),
       mkWorld s1 (calls w)).

(** [SQLiteResult::lastInsertId], lines 475-483. *)
Definition lastInsertId (r : SQLiteResult) (w : World) : QVariant :=
  if isActive (q r) then
    let id := sqlite3_last_insert_rowid (access (d r)) (db w) in
    if negb (id =? 0) then QVLongLong id else QVInvalid
  else QVInvalid.

End Opening.

(** The scripted engine, completed: an open succeeds on every name but
    [locked], and a number is a run of decimal digits. *)
Module StubMore.

Fixpoint digits (acc : Z) (s : string) : option Z :=
  match s with
  | EmptyString => Some acc
  | String c s' =>
      let n := Z.of_nat (Ascii.nat_of_ascii c) in
      if (48 <=? n) && (n <=? 57) then digits (10 * acc + (n - 48)) s' else None
  end.

Definition rowid (s : Stub.StubDB) : Z := Z.of_nat (length (Stub.bound s)).

#[export] Instance more : @Sqlite3More Stub.engine :=
  @Build_Sqlite3More Stub.engine
    (fun _ s => s)
    (fun name _ s => (if String.eqb name "locked" then SQLITE_BUSY else SQLITE_OK, 9, s))
    (fun _ _ s => s)
    (fun _ => rowid)
    (fun _ s => s)
    (fun s => match s with EmptyString => None | _ => digits 0 s end)
    (fun s => s).

Import Stub.

(** A cursor on statement [stmt] that knows its two columns and has no
    lookahead pending. *)
Definition known (stmt : Z) : SQLiteResult :=
  mkResult (mkPrivate 1 stmt false false
                      [setSqlType SQLITE_INTEGER (newField "id" TInt);
                       setSqlType SQLITE_TEXT (newField "title" TString)] [])
           (mkBase 0 true true noError [] LowPrecisionDouble tt).

(** An open driver. *)
Definition openDriver : QSqlDriver := mkQSqlDriver true false noError.

(** A table description: an INTEGER primary key and a text column. *)
Definition tableInfo : list TableInfoRow :=
  [mkTableInfoRow "id" "INTEGER" 1 QVInvalid 1;
   mkTableInfoRow "title" "TEXT" 0 (QVString "none") 0].

End StubMore.

(** ** Counting calls *)

Definition isStep (c : Call) : bool :=
  match c with CallStep _ => true | _ => false end.
Definition isBind (c : Call) : bool :=
  match c with CallBind _ _ _ => true | _ => false end.
Definition isColumnType (c : Call) : bool :=
  match c with CallColumnType _ _ => true | _ => false end.

Definition isReset (c : Call) : bool :=
  match c with CallReset _ => true | _ => false end.
Definition isFinalize (c : Call) : bool :=
  match c with CallFinalize _ => true | _ => false end.

Definition count (p : Call -> bool) (cs : list Call) : nat :=
  length (List.filter p cs).

(** ** The specification's notions *)

(** The other case of an ASCII letter. *)
Definition flipCase (c : ascii) : ascii :=
  let n := Ascii.nat_of_ascii c in
  if ((65 <=? n) && (n <=? 90))%nat then Ascii.ascii_of_nat (n + 32)
  else if ((97 <=? n) && (n <=? 122))%nat then Ascii.ascii_of_nat (n - 32)
  else c.

(** [recase mask s]: [s] with the case of its letters changed wherever [mask]
    says so; every spelling of [s] in another case is of this form. *)
Fixpoint recase (mask : list bool) (s : string) : string :=
  match s, mask with
  | String c s', b :: mask' => String (if b then flipCase c else c) (recase mask' s')
  | _, _ => s
  end.

Definition beginsWithQuote (s : string) : bool :=
  match s with
  | String c _ => Ascii.eqb c QStr.quote
  | EmptyString => false
  end.

Fixpoint endsWithQuote (s : string) : bool :=
  match s with
  | EmptyString => false
  | String c EmptyString => Ascii.eqb c QStr.quote
  | String _ s' => endsWithQuote s'
  end.

(** Quoted at both ends. *)
Definition fullyQuoted (s : string) : bool := beginsWithQuote s && endsWithQuote s.

(** The dot-separated segments of an identifier. *)
Fixpoint segments (s : string) : list string :=
  match s with
  | EmptyString => [EmptyString]
  | String c s' =>
      if Ascii.eqb c QStr.dot then EmptyString :: segments s'
      else match segments s' with
           | seg :: segs => String c seg :: segs
           | [] => [String c EmptyString]
           end
  end.

(** A segment with its quotes doubled, between quotes. *)
Definition quoteSegment (seg : string) : string :=
  String QStr.quote
    (String.append
       (QStr.replace QStr.quote (String QStr.quote (String QStr.quote EmptyString)) seg)
       (String QStr.quote EmptyString)).

Fixpoint joinDots (segs : list string) : string :=
  match segs with
  | [] => EmptyString
  | [seg] => seg
  | seg :: segs' => String.append seg (String QStr.dot (joinDots segs'))
  end.

(** The escaping in the specification's words: every dot-separated segment,
    its quotes doubled, wrapped in quotes. *)
Definition quoteSegments (identifier : string) : string :=
  joinDots (map quoteSegment (segments identifier)).

(** The escaping as the interface describes it: an identifier quoted at both
    ends is returned as it is, every other one has its segments quoted. *)
Definition escapesUnlessFullyQuoted (identifier : string) : Prop :=
  if fullyQuoted identifier then escapeIdentifier identifier = identifier
  else escapeIdentifier identifier = quoteSegments identifier.

(** The primary-key columns of a table description. *)
Definition isPrimaryKey (row : TableInfoRow) : bool := negb (ti_pk row =? 0).

(** * Properties *)

(** ** The declared-type classifier *)

Lemma lowerChar_flipCase (c : ascii) : QStr.lowerChar (flipCase c) = QStr.lowerChar c.
Proof. destruct c as [[] [] [] [] [] [] [] []]; reflexivity. Qed.

Lemma toLower_recase (mask : list bool) (s : string) :
  QStr.toLower (recase mask s) = QStr.toLower s.
Proof.
  revert mask; induction s as [|c s IH]; intros [|b mask]; simpl; try reflexivity.
  rewrite IH. destruct b; [rewrite lowerChar_flipCase|]; reflexivity.
Qed.

Lemma startsWith_spec (p s : string) :
  QStr.startsWith p s = true <-> exists rest, s = String.append p rest.
Proof.
  unfold QStr.startsWith. revert s; induction p as [|c p IH]; intros s.
  - split; [intros _; exists s; reflexivity | intros _; destruct s; reflexivity].
  - destruct s as [|c' s]; [split; [discriminate | intros [rest H]; discriminate]|].
    cbn [String.prefix String.append].
    destruct (ascii_dec c c') as [->|Hne].
    + rewrite IH. split; intros [rest H]; exists rest; congruence.
    + split; [discriminate | intros [rest H]; congruence].
Qed.

Ltac string_cases t :=
  repeat match goal with
         | |- context [String.eqb t ?lit] =>
             destruct (String.eqb_spec t lit) as [?Heq | ?Hne]
         end.

(** C2. The declared-type classifier is total and does not look at case: on
    the lowered name it answers Int for integer and int, Double for double,
    float, real and every name that starts with numeric, ByteArray for blob,
    and String for everything else, the empty name included. *)
Theorem qGetColumnType_classifies (tpName : string) :
  let typeName := QStr.toLower tpName in
  (qGetColumnType tpName = TInt \/ qGetColumnType tpName = TDouble
   \/ qGetColumnType tpName = TByteArray \/ qGetColumnType tpName = TString) /\
  (qGetColumnType tpName = TInt <-> typeName = "integer" \/ typeName = "int") /\
  (qGetColumnType tpName = TDouble <->
     typeName = "double" \/ typeName = "float" \/ typeName = "real"
     \/ exists rest, typeName = String.append "numeric" rest) /\
  (qGetColumnType tpName = TByteArray <-> typeName = "blob") /\
  (qGetColumnType tpName = TString <->
     ~ (typeName = "integer" \/ typeName = "int" \/ typeName = "double"
        \/ typeName = "float" \/ typeName = "real" \/ typeName = "blob"
        \/ exists rest, typeName = String.append "numeric" rest)) /\
  (forall mask, qGetColumnType (recase mask tpName) = qGetColumnType tpName) /\
  qGetColumnType EmptyString = TString.
Proof.
  intros typeName.
  assert (Hcase : forall mask, qGetColumnType (recase mask tpName) = qGetColumnType tpName)
    by (intros mask; unfold qGetColumnType; rewrite toLower_recase; reflexivity).
  assert (Htotal : qGetColumnType tpName = TInt \/ qGetColumnType tpName = TDouble
                   \/ qGetColumnType tpName = TByteArray
                   \/ qGetColumnType tpName = TString).
  { unfold qGetColumnType.
    repeat match goal with |- context [if ?b then _ else _] => destruct b end; tauto. }
  split; [exact Htotal|clear Htotal].
  split; [|split; [|split; [|split; [|split; [exact Hcase | reflexivity]]]]].
  all: clear Hcase; unfold qGetColumnType; subst typeName.
  all: generalize (QStr.toLower tpName); intros t.
  all: pose proof (startsWith_spec "numeric" t) as Hnum.
  all: destruct (QStr.startsWith "numeric" t).
  all: string_cases t; subst; simpl.
  all: try (destruct Hnum as [Hn _]; destruct (Hn eq_refl) as [? ?]; discriminate).
  all: split; intros H; try discriminate; try tauto; try congruence.
  all: try (intros Hd; repeat destruct Hd as [Hd|Hd]; try congruence;
            apply Hnum in Hd; discriminate).
  all: try (exfalso; intuition (try discriminate; try congruence); fail).
  all: try (apply Hnum in H; discriminate).
  all: try (repeat destruct H as [H|H]; try discriminate; try congruence;
            try tauto; apply Hnum in H; discriminate).
Qed.

(** ** Escaping identifiers *)

Lemma append_nil_r (s : string) : String.append s EmptyString = s.
Proof. induction s as [|c s IH]; simpl; [|rewrite IH]; reflexivity. Qed.

Lemma append_assoc (a b c : string) :
  String.append (String.append a b) c = String.append a (String.append b c).
Proof. induction a as [|x a IH]; simpl; [|rewrite IH]; reflexivity. Qed.

Lemma replace_append (c : ascii) (by_ a b : string) :
  QStr.replace c by_ (String.append a b)
  = String.append (QStr.replace c by_ a) (QStr.replace c by_ b).
Proof.
  induction a as [|x a IH]; simpl; [reflexivity|].
  rewrite IH. destruct (Ascii.eqb x c); [rewrite append_assoc|]; reflexivity.
Qed.

Lemma left1_quote (s : string) :
  String.eqb (QStr.left 1 s) (String QStr.quote EmptyString) = beginsWithQuote s.
Proof.
  destruct s as [|c s]; simpl; [reflexivity|].
  destruct (Ascii.eqb c QStr.quote); reflexivity.
Qed.

Lemma right1_quote (s : string) :
  String.eqb (QStr.right 1 s) (String QStr.quote EmptyString) = endsWithQuote s.
Proof.
  unfold QStr.right.
  induction s as [|c s IH]; [reflexivity|].
  destruct s as [|c' s]; simpl.
  - destruct (Ascii.eqb c QStr.quote); reflexivity.
  - simpl in IH. rewrite Nat.sub_0_r in *. exact IH.
Qed.

Lemma escapeIdentifier_cases (identifier : string) :
  _q_escapeIdentifier identifier =
    if QStr.isEmpty identifier || beginsWithQuote identifier || endsWithQuote identifier
    then identifier else escaped identifier.
Proof.
  unfold _q_escapeIdentifier. rewrite left1_quote, right1_quote.
  destruct (QStr.isEmpty identifier), (beginsWithQuote identifier),
    (endsWithQuote identifier); simpl; try reflexivity.
  unfold escaped, QStr.append, QStr.prepend. simpl.
  rewrite replace_append. reflexivity.
Qed.

Lemma segments_nonempty (s : string) : segments s <> [].
Proof.
  induction s as [|c s IH]; simpl; [discriminate|].
  destruct (Ascii.eqb c QStr.dot); [discriminate|].
  destruct (segments s); discriminate.
Qed.

Lemma joinDots_cons (seg : string) (segs : list string) :
  joinDots (seg :: segs) =
    String.append seg
      (match segs with [] => EmptyString | _ => String QStr.dot (joinDots segs) end).
Proof. destruct segs; simpl; [rewrite append_nil_r|]; reflexivity. Qed.

Lemma quoteSegments_escaped (identifier : string) :
  quoteSegments identifier = escaped identifier.
Proof.
  unfold quoteSegments, escaped.
  induction identifier as [|c s IH]; [reflexivity|].
  simpl segments. destruct (Ascii.eqb c QStr.dot) eqn:Hdot.
  - apply Ascii.eqb_eq in Hdot; subst c.
    pose proof (segments_nonempty s) as Hne.
    simpl map. rewrite joinDots_cons.
    destruct (map quoteSegment (segments s)) eqn:Hm;
      [destruct (segments s); [congruence | discriminate]|].
    rewrite IH. reflexivity.
  - pose proof (segments_nonempty s) as Hne.
    destruct (segments s) as [|seg segs]; [congruence|].
    simpl map in *. rewrite joinDots_cons in *.
    unfold quoteSegment in *. simpl in IH. injection IH as IH.
    simpl. destruct (Ascii.eqb c QStr.quote) eqn:Hq.
    + simpl. rewrite IH. reflexivity.
    + simpl. rewrite Hdot. simpl. rewrite IH. reflexivity.
Qed.

Lemma endsWithQuote_append (s : string) :
  endsWithQuote (String.append s (String QStr.quote EmptyString)) = true.
Proof.
  induction s as [|c s IH]; [reflexivity|].
  simpl. destruct (String.append s (String QStr.quote EmptyString)) eqn:E;
    [destruct s; discriminate | exact IH].
Qed.

Lemma escaped_fullyQuoted (identifier : string) :
  fullyQuoted (escaped identifier) = true.
Proof.
  unfold fullyQuoted, escaped. apply andb_true_intro. split; [reflexivity|].
  match goal with |- endsWithQuote (String _ ?t) = true =>
    pose proof (endsWithQuote_append
                  (QStr.replace QStr.dot
                     (String QStr.quote (String QStr.dot (String QStr.quote EmptyString)))
                     (QStr.replace QStr.quote
                        (String QStr.quote (String QStr.quote EmptyString)) identifier)))
      as H;
    simpl; destruct t eqn:E; [discriminate H | exact H]
  end.
Qed.

Example escapeIdentifier_a_dot_b :
  escapeIdentifier "a.b"
  = String QStr.quote (String "a" (String QStr.quote (String "."
      (String QStr.quote (String "b" (String QStr.quote EmptyString)))))).
Proof. reflexivity. Qed.

(** C7, as amended. escapeIdentifier returns the empty identifier and every
    identifier that begins or ends with a quote as it is; of every other one
    it doubles the quotes and wraps each dot-separated segment in quotes. *)
Theorem escapeIdentifier_quotes_segments (identifier : string) :
  escapeIdentifier identifier =
    if QStr.isEmpty identifier || beginsWithQuote identifier || endsWithQuote identifier
    then identifier else quoteSegments identifier.
Proof.
  unfold escapeIdentifier. rewrite escapeIdentifier_cases, quoteSegments_escaped.
  reflexivity.
Qed.

(** C7, as stated, fails on an identifier that ends with a quote and does not
    begin with one: it is not quoted at both ends, and it comes back as it
    is instead of with its segments quoted. *)
Lemma escapeIdentifier_not_only_fully_quoted :
  ~ escapesUnlessFullyQuoted (String "a" (String QStr.quote EmptyString)).
Proof. unfold escapesUnlessFullyQuoted. simpl. discriminate. Qed.

(** C10. escapeIdentifier is idempotent: it returns the empty identifier and
    every identifier that begins or ends with a quote as it is, and every
    other result begins and ends with a quote. *)
Theorem escapeIdentifier_idempotent (identifier : string) :
  escapeIdentifier (escapeIdentifier identifier) = escapeIdentifier identifier
  /\ escapeIdentifier EmptyString = EmptyString
  /\ (if QStr.isEmpty identifier || beginsWithQuote identifier || endsWithQuote identifier
      then escapeIdentifier identifier = identifier
      else beginsWithQuote (escapeIdentifier identifier) = true
           /\ endsWithQuote (escapeIdentifier identifier) = true).
Proof.
  unfold escapeIdentifier.
  rewrite (escapeIdentifier_cases identifier).
  destruct (QStr.isEmpty identifier || beginsWithQuote identifier
            || endsWithQuote identifier) eqn:Hc.
  - rewrite escapeIdentifier_cases, Hc. repeat split; reflexivity.
  - pose proof (escaped_fullyQuoted identifier) as Hq.
    unfold fullyQuoted in Hq. apply andb_prop in Hq as [Hb He].
    rewrite escapeIdentifier_cases, Hb, orb_true_r. repeat split; assumption.
Qed.

(** ** Table descriptions *)

Lemma tableInfoLoop_spec (onlyPIndex : bool) (rows : list TableInfoRow)
    (ind : list QSqlField) :
  tableInfoLoop onlyPIndex rows ind
  = ind ++ map fieldOfRow
             (List.filter (fun row => negb onlyPIndex || isPrimaryKey row) rows).
Proof.
  revert ind; induction rows as [|row rows IH]; intros ind; simpl.
  - rewrite app_nil_r. reflexivity.
  - unfold isPrimaryKey at 1.
    destruct onlyPIndex, (ti_pk row =? 0); simpl; rewrite IH;
      try rewrite <- app_assoc; reflexivity.
Qed.

Lemma autoValue_fieldOfRow (row : TableInfoRow) :
  autoValue (fieldOfRow row)
  = isPrimaryKey row && String.eqb (QStr.toLower (ti_type row)) "integer".
Proof.
  unfold fieldOfRow, isPrimaryKey.
  destruct (negb (ti_pk row =? 0) && String.eqb (QStr.toLower (ti_type row)) "integer");
    reflexivity.
Qed.

Example autoValue_INTEGER :
  autoValue (fieldOfRow (mkTableInfoRow "id" "INTEGER" 1 QVInvalid 1)) = true.
Proof. reflexivity. Qed.

Example autoValue_INT :
  autoValue (fieldOfRow (mkTableInfoRow "id" "INT" 1 QVInvalid 1)) = false.
Proof. reflexivity. Qed.

Section Introspection.

Context `{qt : QtBase}.

(** C9. The primary index of a table is made of the fields of its
    primary-key columns, and a field is flagged auto-generated exactly when
    its column is a primary-key column whose declared type, lowered, is
    integer: int and every other name leave the flag unset. *)
Theorem primaryIndex_autoValue (s : SQLiteDriver) (query : string -> list TableInfoRow)
    (tblname : string) :
  let table := if isIdentifierEscaped tblname then stripDelimiters tblname else tblname in
  primaryIndex s query tblname
  = (if isOpen (base s)
     then map fieldOfRow (List.filter isPrimaryKey (query (tableInfoQuery table)))
     else [])
  /\ (forall row, autoValue (fieldOfRow row)
                  = isPrimaryKey row && String.eqb (QStr.toLower (ti_type row)) "integer")
  /\ (forall row, QStr.toLower (ti_type row) = "int" -> autoValue (fieldOfRow row) = false).
Proof.
  intros table. split; [|split].
  - unfold primaryIndex, qGetTableInfo. fold table.
    destruct (isOpen (base s)); simpl; [|reflexivity].
    rewrite tableInfoLoop_spec. reflexivity.
  - exact autoValue_fieldOfRow.
  - intros row Hint. rewrite autoValue_fieldOfRow, Hint. apply andb_false_r.
Qed.

End Introspection.

(** ** The cursor *)

Section CursorProperties.

Context `{engine : Sqlite3} `{qt : QtBase}.

(** C8, as amended. A prepare on a cursor whose connection is closed or in
    the open-error state (or that has no driver) returns false and changes
    nothing: no error is recorded and the engine is not called. *)
Theorem prepare_without_connection (driver : option QSqlDriver) (query : string)
    (r : SQLiteResult) (w : World) :
  (forall drv, driver = Some drv -> isOpen drv = false \/ isOpenError drv = true) ->
  prepare driver query r w = (false, r, w).
Proof.
  intros Hclosed. unfold prepare.
  destruct driver as [drv|]; [|reflexivity].
  destruct (Hclosed drv eq_refl) as [-> | ->]; [reflexivity|].
  rewrite orb_true_r. reflexivity.
Qed.

Lemma stmt_beforeStep (initialFetch : bool) (r : SQLiteResult) (w : World) :
  stmt (d (beforeStep initialFetch r w)) = stmt (d r).
Proof. unfold beforeStep. destruct initialFetch; reflexivity. Qed.

Lemma access_beforeStep (initialFetch : bool) (r : SQLiteResult) (w : World) :
  access (d (beforeStep initialFetch r w)) = access (d r).
Proof. unfold beforeStep. destruct initialFetch; reflexivity. Qed.

Lemma q_beforeStep (initialFetch : bool) (r : SQLiteResult) (w : World) :
  q (beforeStep initialFetch r w) = q r.
Proof. unfold beforeStep. destruct initialFetch; reflexivity. Qed.

Lemma fetchNext_unfold (values : Values) (idx : Z) (initialFetch : bool)
    (r : SQLiteResult) (w : World) :
  skipRow (d r) = false ->
  fetchNext values idx initialFetch r w =
    let r := beforeStep initialFetch r w in
    if stmt (d r) =? 0 then
      Some (false, values,
            on_q (setAt AfterLastRow)
              (on_q (setLastError
                       (mkQSqlError (translate "SQLiteResult" "Unable to fetch row")
                                    (translate "SQLiteResult" "No query")
                                    ConnectionError (-1))) r), w)
    else
      let '(res, w) := do_step (stmt (d r)) w in
      if res =? SQLITE_ROW then
        let '(r, w) := if isEmptyRecord (rInf (d r)) then initColumns false r w
                       else (r, w) in
        if (idx <? 0) && negb initialFetch then Some (true, values, r, w)
        else
          '(values, r, w) ← fetchRow values idx (seq 0 (length (rInf (d r)))) r w;
          Some (true, values, r, w)
      else if res =? SQLITE_DONE then
        let '(r, w) := if isEmptyRecord (rInf (d r)) then initColumns true r w
                       else (r, w) in
        let r := on_q (setAt AfterLastRow) r in
        let '(_, w) := do_reset (stmt (d r)) w in
        Some (false, values, r, w)
      else if (res =? SQLITE_CONSTRAINT) || (res =? SQLITE_ERROR) then
        let '(res, w) := do_reset (stmt (d r)) w in
        Some (false, values,
              on_q (setAt AfterLastRow)
                (on_q (setLastError
                         (qMakeError (access (d r))
                                     (translate "SQLiteResult" "Unable to fetch row")
                                     ConnectionError res w)) r), w)
      else
        let r := on_q (setLastError
                         (qMakeError (access (d r))
                                     (translate "SQLiteResult" "Unable to fetch row")
                                     ConnectionError res w)) r in
        let '(_, w) := do_reset (stmt (d r)) w in
        Some (false, values, on_q (setAt AfterLastRow) r, w).
Proof.
  intros Hskip. unfold fetchNext. rewrite Hskip. unfold beforeStep.
  destruct initialFetch; reflexivity.
Qed.

(** C5, as amended. When the step of a fetchNext reports a constraint
    violation or a generic error, the statement is reset, the error is
    stored as the cursor's last error with the category ConnectionError and
    the code of the reset, the position is AfterLastRow and fetchNext returns
    false; and every error path of fetchNext (no statement, or a step that is
    neither a row nor the end) leaves a valid last error. *)
Theorem fetchNext_error_paths (values : Values) (idx : Z) (initialFetch : bool)
    (r : SQLiteResult) (w : World) :
  skipRow (d r) = false ->
  let s := stmt (d r) in
  let stepped := sqlite3_step s (db w) in
  let rewound := sqlite3_reset s (snd stepped) in
  (s <> 0 -> fst stepped = SQLITE_CONSTRAINT \/ fst stepped = SQLITE_ERROR ->
   exists r' w',
     fetchNext values idx initialFetch r w = Some (false, values, r', w')
     /\ calls w' = calls w ++ [CallStep s; CallReset s]
     /\ db w' = snd rewound
     /\ lastError (q r')
        = mkQSqlError (translate "SQLiteResult" "Unable to fetch row")
                      (sqlite3_errmsg16 (access (d r)) (snd rewound))
                      ConnectionError (fst rewound)
     /\ at_ (q r') = AfterLastRow)
  /\ (s = 0 \/ (fst stepped <> SQLITE_ROW /\ fst stepped <> SQLITE_DONE) ->
      exists r' w',
        fetchNext values idx initialFetch r w = Some (false, values, r', w')
        /\ isValid (lastError (q r')) = true
        /\ errorType (lastError (q r')) = ConnectionError
        /\ at_ (q r') = AfterLastRow).
Proof.
  intros Hskip s stepped rewound.
  rewrite (fetchNext_unfold _ _ _ _ _ Hskip). cbv zeta.
  rewrite stmt_beforeStep. fold s. unfold do_step, do_reset, call.
  subst rewound stepped.
  destruct (sqlite3_step s (db w)) as [rc db1]. simpl fst. simpl snd. simpl db.
  split.
  - intros Hs Hrc. apply Z.eqb_neq in Hs. rewrite Hs.
    assert (Hbranch : (rc =? SQLITE_ROW) = false /\ (rc =? SQLITE_DONE) = false
                      /\ (rc =? SQLITE_CONSTRAINT) || (rc =? SQLITE_ERROR) = true)
      by (destruct Hrc; subst rc; repeat split; reflexivity).
    destruct Hbranch as (-> & -> & ->).
    destruct (sqlite3_reset s db1) as [rc' db2].
    eexists _, _. split; [reflexivity|].
    simpl. rewrite access_beforeStep, <- app_assoc. repeat split; reflexivity.
  - intros [Hs | [Hrow Hdone]].
    + rewrite Hs. simpl. eexists _, _. repeat split; reflexivity.
    + destruct (s =? 0); [eexists _, _; repeat split; reflexivity|].
      apply Z.eqb_neq in Hrow, Hdone. rewrite Hrow, Hdone.
      destruct ((rc =? SQLITE_CONSTRAINT) || (rc =? SQLITE_ERROR)); simpl;
        rewrite ?stmt_beforeStep; fold s;
        destruct (sqlite3_reset s db1) as [rc' db2];
        eexists _, _; repeat split; reflexivity.
Qed.

(** *** The reset and the binding of [exec] *)

Lemma count_app (p : Call -> bool) (a b : list Call) :
  count p (a ++ b) = (count p a + count p b)%nat.
Proof. unfold count. rewrite List.filter_app, length_app. reflexivity. Qed.



Lemma stmt_beforeReset (r : SQLiteResult) : stmt (d (beforeReset r)) = stmt (d r).
Proof. reflexivity. Qed.

Lemma exec_rebind_unfold (r : SQLiteResult) (w : World) :
  exec_rebind r w =
    let values := boundValues (q r) in
    let r0 := beforeReset r in
    let '(res, w) := do_reset (stmt (d r)) w in
    if negb (res =? SQLITE_OK) then
      let '(r', w) :=
        finalize (on_q (setLastError
                          (qMakeError (access (d r))
                             (translate "SQLiteResult" "Unable to reset statement")
                             StatementError res w)) r0) w in
      (false, r', w)
    else if (sqlite3_bind_parameter_count (stmt (d r)) (db w) =? length values)%nat
    then bindValues 0 values r0 w
    else (false,
          on_q (setLastError
                  (mkQSqlError (translate "SQLiteResult" "Parameter count mismatch")
                               EmptyString StatementError (-1))) r0, w).
Proof. reflexivity. Qed.

(** C4, as amended. An execute whose number of values differs from the
    placeholder count of the statement fails with a StatementError and makes
    no bind call; when the reset that comes first succeeded, the error is
    Parameter count mismatch and the engine is left as the reset left it;
    when the reset failed, the error is Unable to reset statement, with the
    code of the reset, and the statement is finalized. *)
Theorem exec_parameter_count_mismatch (r : SQLiteResult) (w : World) :
  let s := stmt (d r) in
  let rewound := sqlite3_reset s (db w) in
  sqlite3_bind_parameter_count s (snd rewound) <> length (boundValues (q r)) ->
  exists r' w',
    exec r w = Some (false, r', w')
    /\ errorType (lastError (q r')) = StatementError
    /\ count isBind (calls w') = count isBind (calls w)
    /\ (fst rewound = SQLITE_OK ->
        lastError (q r')
        = mkQSqlError (translate "SQLiteResult" "Parameter count mismatch")
                      EmptyString StatementError (-1)
        /\ calls w' = calls w ++ [CallReset s]
        /\ db w' = snd rewound
        /\ stmt (d r') = s)
    /\ (fst rewound <> SQLITE_OK ->
        driverText (lastError (q r'))
        = translate "SQLiteResult" "Unable to reset statement"
        /\ number (lastError (q r')) = fst rewound
        /\ stmt (d r') = 0
        /\ lastError (q r')
           = mkQSqlError (translate "SQLiteResult" "Unable to reset statement")
                         (sqlite3_errmsg16 (access (d r)) (snd rewound))
                         StatementError (fst rewound)
        /\ calls w' = calls w ++ [CallReset s]
                      ++ (if s =? 0 then [] else [CallFinalize s])
        /\ db w' = (if s =? 0 then snd rewound
                    else snd (sqlite3_finalize s (snd rewound)))).
Proof.
  intros s rewound Hcount. unfold exec. rewrite exec_rebind_unfold. cbv zeta.
  unfold do_reset, call. fold s. subst rewound.
  destruct (sqlite3_reset s (db w)) as [res db1]. simpl fst. simpl snd in *.
  destruct (Z.eqb_spec res SQLITE_OK) as [Hok | Hfail]; simpl negb; cbv iota.
  - simpl db. apply Nat.eqb_neq in Hcount. rewrite Hcount.
    eexists _, _. split; [reflexivity|]. simpl.
    rewrite count_app. unfold count at 2. simpl.
    repeat split; try reflexivity; try lia; try congruence.
  - unfold finalize, do_finalize, call. simpl stmt. fold s.
    destruct (s =? 0) eqn:Hs; simpl db;
      [|destruct (sqlite3_finalize s db1) as [rc db2]];
      eexists _, _; (split; [reflexivity|]); simpl;
      (split; [reflexivity|]);
      (split; [rewrite ?app_nil_r, !count_app; unfold count; simpl; lia|]);
      (split; [intros Hok; congruence|]); intros _;
      rewrite ?app_nil_r, <- ?app_assoc;
      repeat split; try reflexivity.
    apply Z.eqb_eq. exact Hs.
Qed.

(** *** Column metadata *)

Lemma on_d_id (r : SQLiteResult) : on_d (fun p => set_rInf (rInf p ++ []) p) r = r.
Proof. destruct r as [[] ?]. unfold on_d, set_rInf. simpl. rewrite app_nil_r. reflexivity. Qed.

(** On an empty result set the loop of [initColumns] appends the declared
    fields and calls nothing. *)
Lemma initColumns_loop_empty (cols : list nat) (r : SQLiteResult) (w : World) :
  initColumns_loop true cols r w
  = (on_d (fun p => set_rInf (rInf p ++ map (declaredField (stmt p) (db w)) cols) p) r, w).
Proof.
  revert r; induction cols as [|i cols IH]; intros r; simpl.
  - rewrite on_d_id. reflexivity.
  - rewrite IH. destruct r as [[] ?]. unfold on_d, set_rInf, declaredField. simpl.
    rewrite <- app_assoc. simpl.
    destruct (QStr.isEmpty (sqlite3_column_decltype16 _ _ _)); reflexivity.
Qed.

Lemma initColumns_empty (r : SQLiteResult) (w : World) :
  rInf (d r) = [] ->
  let '(r', w') := initColumns true r w in
  w' = w
  /\ rInf (d r') = map (declaredField (stmt (d r)) (db w))
                       (seq 0 (sqlite3_column_count (stmt (d r)) (db w)))
  /\ stmt (d r') = stmt (d r).
Proof.
  intros Hempty. unfold initColumns.
  destruct (sqlite3_column_count (stmt (d r)) (db w)) as [|n] eqn:Hn.
  - simpl. auto.
  - replace (Z.of_nat (S n) <=? 0) with false by (symmetry; apply Z.leb_gt; lia).
    rewrite initColumns_loop_empty. simpl. rewrite Hempty. auto.
Qed.

(** C3. When the first step of a statement finds no row, the columns are
    made from the declared type names alone (Invalid for a column without
    one), the storage class recorded is -1, and sqlite3_column_type is never
    called: the step and the reset are the only calls. *)
Theorem fetchNext_zero_rows (values : Values) (idx : Z) (initialFetch : bool)
    (r : SQLiteResult) (w : World) :
  let s := stmt (d r) in
  let stepped := sqlite3_step s (db w) in
  skipRow (d r) = false ->
  s <> 0 ->
  rInf (d r) = [] ->
  fst stepped = SQLITE_DONE ->
  exists r' w',
    fetchNext values idx initialFetch r w = Some (false, values, r', w')
    /\ rInf (d r')
       = map (declaredField s (snd stepped))
             (seq 0 (sqlite3_column_count s (snd stepped)))
    /\ calls w' = calls w ++ [CallStep s; CallReset s]
    /\ count isColumnType (calls w') = count isColumnType (calls w)
    /\ at_ (q r') = AfterLastRow.
Proof.
  intros s stepped Hskip Hs Hempty Hdone.
  rewrite (fetchNext_unfold _ _ _ _ _ Hskip). cbv zeta.
  rewrite stmt_beforeStep. fold s. apply Z.eqb_neq in Hs. rewrite Hs.
  unfold do_step, call. subst stepped.
  destruct (sqlite3_step s (db w)) as [rc db1]. simpl in Hdone. subst rc.
  simpl snd. change (SQLITE_DONE =? SQLITE_ROW) with false.
  change (SQLITE_DONE =? SQLITE_DONE) with true. cbv iota.
  assert (Hr : rInf (d (beforeStep initialFetch r w)) = [])
    by (unfold beforeStep; destruct initialFetch; exact Hempty).
  rewrite Hr. simpl isEmptyRecord. cbv iota.
  match goal with |- context [initColumns true ?r0 ?w0] =>
    pose proof (initColumns_empty r0 w0 Hr) as Hi;
    destruct (initColumns true r0 w0) as [r1 w1]
  end.
  destruct Hi as (-> & Hinf & Hstmt). rewrite stmt_beforeStep in Hinf, Hstmt.
  simpl db in Hinf. fold s in Hinf, Hstmt.
  unfold do_reset, call. simpl. rewrite Hstmt.
  destruct (sqlite3_reset s db1) as [rc' db2].
  eexists _, _. split; [reflexivity|]. simpl.
  rewrite <- app_assoc. simpl. rewrite count_app.
  repeat split; try assumption; try reflexivity.
  unfold count at 2. simpl. lia.
Qed.

(** What [initColumns] and the row loop leave alone: the statement, the
    lookahead flag, the base state, the engine, and the number of steps. *)
Lemma initColumns_loop_frame (e : bool) (cols : list nat) (r : SQLiteResult) (w : World) :
  let '(r', w') := initColumns_loop e cols r w in
  stmt (d r') = stmt (d r) /\ skipRow (d r') = skipRow (d r)
  /\ firstRow (d r') = firstRow (d r) /\ q r' = q r
  /\ length (rInf (d r')) = (length (rInf (d r)) + length cols)%nat
  /\ db w' = db w /\ count isStep (calls w') = count isStep (calls w).
Proof.
  revert r w; induction cols as [|i cols IH]; intros r w; simpl.
  - repeat split; try reflexivity. lia.
  - destruct e.
    + match goal with |- context [initColumns_loop true cols ?r0 ?w0] =>
        specialize (IH r0 w0); destruct (initColumns_loop true cols r0 w0) as [r' w']
      end.
      destruct IH as (H1 & H2 & H3 & H4 & H5 & H6 & H7). simpl in *.
      rewrite length_app in H5. simpl in H5. repeat split; try assumption. lia.
    + unfold do_column_type, call. simpl.
      match goal with |- context [initColumns_loop false cols ?r0 ?w0] =>
        specialize (IH r0 w0); destruct (initColumns_loop false cols r0 w0) as [r' w']
      end.
      destruct IH as (H1 & H2 & H3 & H4 & H5 & H6 & H7). simpl in *.
      rewrite length_app in H5. simpl in H5.
      rewrite count_app in H7. unfold count at 3 in H7. simpl in H7.
      repeat split; try assumption; lia.
Qed.

Lemma initColumns_frame (e : bool) (r : SQLiteResult) (w : World) :
  let '(r', w') := initColumns e r w in
  stmt (d r') = stmt (d r) /\ skipRow (d r') = skipRow (d r)
  /\ firstRow (d r') = firstRow (d r)
  /\ length (rInf (d r'))
     = (length (rInf (d r)) + sqlite3_column_count (stmt (d r)) (db w))%nat
  /\ db w' = db w /\ count isStep (calls w') = count isStep (calls w).
Proof.
  unfold initColumns.
  destruct (sqlite3_column_count (stmt (d r)) (db w)) as [|n] eqn:Hn.
  - simpl. repeat split; try reflexivity. lia.
  - replace (Z.of_nat (S n) <=? 0) with false by (symmetry; apply Z.leb_gt; lia).
    match goal with |- context [initColumns_loop e ?cols ?r0 ?w0] =>
      pose proof (initColumns_loop_frame e cols r0 w0) as H;
      destruct (initColumns_loop e cols r0 w0) as [r' w']
    end.
    destruct H as (H1 & H2 & H3 & H4 & H5 & H6 & H7). simpl in *.
    rewrite length_seq in H5. repeat split; assumption.
Qed.

Lemma vec_set_in_range (i : nat) (x : QVariant) (v : ValueCache) :
  (i < length v)%nat -> vec_set (Z.of_nat i) x v = Some (<[i := x]> v).
Proof.
  intros Hi. unfold vec_set.
  replace (0 <=? Z.of_nat i) with true by (symmetry; apply Z.leb_le; lia).
  replace (Z.of_nat i <? Z.of_nat (length v)) with true
    by (symmetry; apply Z.ltb_lt; lia).
  simpl. rewrite Nat2Z.id. reflexivity.
Qed.


(** *** The lookahead *)






(** *** Closing the connection *)

Lemma finalizeAll_spec (rs : list SQLiteResult) (w : World) :
  let '(rs', w') := finalizeAll rs w in
  rs' = map (on_d (set_stmt 0)) rs
  /\ calls w' = calls w
                ++ map CallFinalize
                     (List.filter (fun s => negb (s =? 0)) (map (fun r => stmt (d r)) rs)).
Proof.
  revert w; induction rs as [|r rs IH]; intros w; simpl.
  - rewrite app_nil_r. auto.
  - unfold finalize, do_finalize, call.
    destruct (stmt (d r) =? 0) eqn:Hs; simpl.
    + specialize (IH w). destruct (finalizeAll rs w) as [rs' w'].
      destruct IH as [-> ->]. split; [|reflexivity].
      f_equal. apply Z.eqb_eq in Hs. destruct r as [[] ?]. simpl in *. subst.
      reflexivity.
    + destruct (sqlite3_finalize (stmt (d r)) (db w)) as [rc db1].
      match goal with |- context [finalizeAll rs ?w0] =>
        specialize (IH w0); destruct (finalizeAll rs w0) as [rs' w']
      end.
      destruct IH as [-> ->]. simpl. rewrite <- app_assoc. auto.
Qed.

(** C6. close does nothing on a connection that is not open. On an open one
    it finalizes every tracked cursor that holds a statement (whatever the
    engine answers to a finalize) and leaves every tracked cursor without
    statement, then releases the native handle; the connection ends closed,
    also when the release fails, and that failure is reported as a
    ConnectionError. *)
Theorem close_finalizes_all (s : SQLiteDriver) (w : World) :
  (isOpen (base s) = false -> close s w = (s, w))
  /\ (isOpen (base s) = true ->
      let held := List.filter (fun h => negb (h =? 0))
                              (map (fun r => stmt (d r)) (results s)) in
      let w0 := snd (finalizeAll (results s) w) in
      let released := sqlite3_close (driverAccess s) (db w0) in
      exists s' w',
        close s w = (s', w')
        /\ results s' = map (on_d (set_stmt 0)) (results s)
        /\ Forall (fun r => stmt (d r) = 0) (results s')
        /\ calls w' = calls w ++ map CallFinalize held ++ [CallClose (driverAccess s)]
        /\ db w' = snd released
        /\ isOpen (base s') = false
        /\ isOpenError (base s') = false
        /\ driverAccess s' = 0
        /\ driverLastError (base s')
           = (if fst released =? SQLITE_OK then driverLastError (base s)
              else mkQSqlError (translate "SQLiteDriver" "Error closing database")
                               (sqlite3_errmsg16 (driverAccess s) (snd released))
                               ConnectionError (-1))).
Proof.
  split; intros Hopen; unfold close; rewrite Hopen; [reflexivity|].
  cbv zeta. pose proof (finalizeAll_spec (results s) w) as Hf.
  destruct (finalizeAll (results s) w) as [rs w0]. destruct Hf as [-> Hcalls].
  simpl snd. unfold do_close, call.
  destruct (sqlite3_close (driverAccess s) (db w0)) as [res db1].
  eexists _, _. split; [reflexivity|]. simpl.
  rewrite Hcalls, <- app_assoc.
  repeat split; try reflexivity.
  - apply List.Forall_forall. intros r Hr. apply in_map_iff in Hr as (r0 & <- & _).
    reflexivity.
  - destruct (res =? SQLITE_OK); reflexivity.
Qed.

End CursorProperties.

(** ** The properties on the scripted engine *)

Import Stub.


Example execute_then_fetch_one_row :
  match exec (cursor 5 []) oneRow with
  | Some (ok, r2, w2) =>
      ok = true
      /\ calls w2 = [CallReset 5; CallStep 5; CallColumnType 5 0; CallColumnType 5 1;
                     CallColumnType 5 0; CallColumnType 5 1]
      /\ match gotoNext [QVInvalid; QVInvalid] 0 r2 w2 with
         | Some (hasRow, row, _, w3) =>
             hasRow = true /\ row = [QVLongLong 7; QVString EmptyString] /\ w3 = w2
         | None => False
         end
  | None => False
  end.
Proof. vm_compute. repeat split; reflexivity. Qed.

(** A statement without rows, with columns declared INTEGER and TEXT. *)
Lemma fetchNext_zero_rows_witness :
  let r := beforeReset (cursor 5 []) in
  let stepped := sqlite3_step 5 (db noRow) in
  skipRow (d r) = false
  /\ stmt (d r) <> 0
  /\ rInf (d r) = []
  /\ fst stepped = SQLITE_DONE
  /\ exists r' w',
       fetchNext TheFirstRow 0 true r noRow = Some (false, TheFirstRow, r', w')
       /\ rInf (d r')
          = map (declaredField 5 (snd stepped)) (seq 0 (sqlite3_column_count 5 (snd stepped)))
       /\ calls w' = calls noRow ++ [CallStep 5; CallReset 5]
       /\ count isColumnType (calls w') = count isColumnType (calls noRow)
       /\ at_ (q r') = AfterLastRow.
Proof.
  intros r stepped.
  assert (H1 : skipRow (d r) = false) by reflexivity.
  assert (H2 : stmt (d r) <> 0) by discriminate.
  assert (H3 : rInf (d r) = []) by reflexivity.
  assert (H4 : fst stepped = SQLITE_DONE) by reflexivity.
  split; [exact H1|]. split; [exact H2|]. split; [exact H3|]. split; [exact H4|].
  exact (fetchNext_zero_rows TheFirstRow 0 true r noRow H1 H2 H3 H4).
Defined.

Example zero_rows_INTEGER_TEXT :
  match exec (cursor 5 []) noRow with
  | Some (ok, r, w) =>
      ok = true
      /\ map fieldType (rInf (d r)) = [TInt; TString]
      /\ map sqlType (rInf (d r)) = [-1; -1]
      /\ calls w = [CallReset 5; CallStep 5; CallReset 5]
  | None => False
  end.
Proof. vm_compute. repeat split; reflexivity. Qed.

(** One value for two placeholders, after a reset that succeeded. *)
Lemma exec_parameter_count_mismatch_witness :
  let r := cursor 5 [QVInt 1] in
  let rewound := sqlite3_reset 5 (db twoPlaceholders) in
  sqlite3_bind_parameter_count 5 (snd rewound) <> length (boundValues (q r))
  /\ exists r' w',
       exec r twoPlaceholders = Some (false, r', w')
       /\ errorType (lastError (q r')) = StatementError
       /\ count isBind (calls w') = count isBind (calls twoPlaceholders)
       /\ (fst rewound = SQLITE_OK ->
           lastError (q r')
           = mkQSqlError (translate "SQLiteResult" "Parameter count mismatch")
                         EmptyString StatementError (-1)
           /\ calls w' = calls twoPlaceholders ++ [CallReset 5]
           /\ db w' = snd rewound
           /\ stmt (d r') = 5)
       /\ (fst rewound <> SQLITE_OK ->
           driverText (lastError (q r'))
           = translate "SQLiteResult" "Unable to reset statement"
           /\ number (lastError (q r')) = fst rewound
           /\ stmt (d r') = 0
           /\ lastError (q r')
              = mkQSqlError (translate "SQLiteResult" "Unable to reset statement")
                            (sqlite3_errmsg16 (access (d r)) (snd rewound))
                            StatementError (fst rewound)
           /\ calls w' = calls twoPlaceholders ++ [CallReset 5]
                         ++ (if 5 =? 0 then [] else [CallFinalize 5])
           /\ db w' = (if 5 =? 0 then snd rewound
                       else snd (sqlite3_finalize 5 (snd rewound)))).
Proof.
  intros r rewound.
  assert (H1 : sqlite3_bind_parameter_count 5 (snd rewound) <> length (boundValues (q r)))
    by (simpl; lia).
  split; [exact H1|].
  exact (exec_parameter_count_mismatch r twoPlaceholders H1).
Defined.

(** C4, as stated, fails when the reset of execute fails: the count differs,
    and the error is the one of the reset. *)
Lemma exec_mismatch_after_failed_reset :
  let r := cursor 5 [QVInt 1] in
  let w := world failingReset in
  sqlite3_bind_parameter_count (stmt (d r)) (db w) <> length (boundValues (q r))
  /\ match exec r w with
     | Some (ok, r', w') =>
         ok = false
         /\ lastError (q r')
            = mkQSqlError "Unable to reset statement" "stub" StatementError SQLITE_ERROR
         /\ driverText (lastError (q r')) <> "Parameter count mismatch"
         /\ driverText (lastError (q r')) <> "parameter count mismatch"
     | None => False
     end.
Proof. vm_compute. repeat split; try discriminate; lia. Qed.

(** A step that violates a constraint. *)
Lemma fetchNext_error_paths_witness :
  let r := cursor 5 [] in
  let stepped := sqlite3_step 5 (db constraintViolation) in
  let rewound := sqlite3_reset 5 (snd stepped) in
  skipRow (d r) = false
  /\ stmt (d r) <> 0
  /\ (fst stepped = SQLITE_CONSTRAINT \/ fst stepped = SQLITE_ERROR)
  /\ exists r' w',
       fetchNext (CallerRow []) 0 false r constraintViolation
       = Some (false, CallerRow [], r', w')
       /\ calls w' = calls constraintViolation ++ [CallStep 5; CallReset 5]
       /\ db w' = snd rewound
       /\ lastError (q r')
          = mkQSqlError (translate "SQLiteResult" "Unable to fetch row")
                        (sqlite3_errmsg16 (access (d r)) (snd rewound))
                        ConnectionError (fst rewound)
       /\ at_ (q r') = AfterLastRow.
Proof.
  intros r stepped rewound.
  assert (H1 : skipRow (d r) = false) by reflexivity.
  assert (H2 : stmt (d r) <> 0) by discriminate.
  assert (H3 : fst stepped = SQLITE_CONSTRAINT \/ fst stepped = SQLITE_ERROR)
    by (left; reflexivity).
  split; [exact H1|]. split; [exact H2|]. split; [exact H3|].
  exact (proj1 (fetchNext_error_paths (CallerRow []) 0 false r constraintViolation H1)
               H2 H3).
Defined.

(** C5, as stated, fails on a step that violates a constraint: the error
    stored is a ConnectionError, not a StatementError. *)
Lemma fetchNext_constraint_is_ConnectionError :
  match fetchNext (CallerRow []) 0 false (cursor 5 []) constraintViolation with
  | Some (hasRow, _, r', _) =>
      hasRow = false
      /\ errorType (lastError (q r')) = ConnectionError
      /\ errorType (lastError (q r')) <> StatementError
  | None => False
  end.
Proof. vm_compute. repeat split; discriminate. Qed.

(** Three cursors, the finalize of the second fails, and so does the close. *)
Lemma close_finalizes_all_witness :
  let w := world failingClose in
  let w0 := snd (finalizeAll (results connection) w) in
  let released := sqlite3_close (driverAccess connection) (db w0) in
  isOpen (base connection) = true
  /\ fst (sqlite3_finalize 2 (db w)) = SQLITE_ERROR
  /\ fst released = SQLITE_BUSY
  /\ exists s' w',
       close connection w = (s', w')
       /\ results s' = map (on_d (set_stmt 0)) (results connection)
       /\ Forall (fun r => stmt (d r) = 0) (results s')
       /\ calls w'
          = calls w
            ++ map CallFinalize
                 (List.filter (fun h => negb (h =? 0))
                              (map (fun r => stmt (d r)) (results connection)))
            ++ [CallClose (driverAccess connection)]
       /\ db w' = snd released
       /\ isOpen (base s') = false
       /\ isOpenError (base s') = false
       /\ driverAccess s' = 0
       /\ driverLastError (base s')
          = (if fst released =? SQLITE_OK then driverLastError (base connection)
             else mkQSqlError (translate "SQLiteDriver" "Error closing database")
                              (sqlite3_errmsg16 (driverAccess connection) (snd released))
                              ConnectionError (-1)).
Proof.
  intros w w0 released.
  assert (H1 : isOpen (base connection) = true) by reflexivity.
  split; [exact H1|]. split; [reflexivity|]. split; [reflexivity|].
  exact (proj2 (close_finalizes_all connection w) H1).
Defined.

Example close_three_cursors :
  let '(s', w') := close connection (world failingClose) in
  calls w' = [CallFinalize 1; CallFinalize 2; CallFinalize 3; CallClose 1]
  /\ map (fun r => stmt (d r)) (results s') = [0; 0; 0]
  /\ isOpen (base s') = false
  /\ driverLastError (base s')
     = mkQSqlError "Error closing database" "unable to close" ConnectionError (-1).
Proof. vm_compute. repeat split; reflexivity. Qed.

Example close_when_closed :
  let s := mkDriver closedDriver 0 [cursor 1 []] in
  close s (world failingClose) = (s, world failingClose).
Proof. reflexivity. Qed.

(** A prepare on a closed connection. *)
Lemma prepare_without_connection_witness :
  (forall drv, Some closedDriver = Some drv -> isOpen drv = false \/ isOpenError drv = true)
  /\ prepare (Some closedDriver) "SELECT 1" (cursor 0 []) noRow
     = (false, cursor 0 [], noRow).
Proof.
  assert (H1 : forall drv, Some closedDriver = Some drv ->
                           isOpen drv = false \/ isOpenError drv = true)
    by (intros drv Heq; injection Heq as <-; left; reflexivity).
  split; [exact H1|].
  exact (prepare_without_connection (Some closedDriver) "SELECT 1" (cursor 0 []) noRow H1).
Defined.

(** C8, as stated, fails: the prepare on a closed connection returns false
    and records no error at all. *)
Lemma prepare_closed_records_no_error :
  let '(ok, r', w') := prepare (Some closedDriver) "SELECT 1" (cursor 0 []) noRow in
  ok = false
  /\ lastError (q r') = noError
  /\ isValid (lastError (q r')) = false
  /\ errorType (lastError (q r')) <> StatementError
  /\ calls w' = [].
Proof. vm_compute. repeat split; discriminate. Qed.

(** A primary-key column declared INT. *)
Lemma primaryIndex_autoValue_witness :
  let row := mkTableInfoRow "id" "INT" 1 QVInvalid 1 in
  QStr.toLower (ti_type row) = "int"
  /\ autoValue (fieldOfRow row) = false.
Proof.
  intros row.
  assert (H1 : QStr.toLower (ti_type row) = "int") by reflexivity.
  split; [exact H1|].
  exact (proj2 (proj2 (primaryIndex_autoValue connection (fun _ => [row]) "t")) row H1).
Defined.

Example primaryIndex_INTEGER_and_INT :
  map autoValue
      (primaryIndex connection
         (fun _ => [mkTableInfoRow "id" "INTEGER" 1 QVInvalid 1;
                    mkTableInfoRow "name" "TEXT" 0 QVInvalid 0;
                    mkTableInfoRow "code" "INT" 1 QVInvalid 2])
         "t")
  = [true; false].
Proof. reflexivity. Qed.

(** * Further properties of the cursor *)

Section CursorLifecycle.

Context `{engine : Sqlite3} `{qt : QtBase}.

Lemma finalize_cases (r : SQLiteResult) (w : World) :
  finalize r w
  = if stmt (d r) =? 0 then (r, w)
    else (on_d (set_stmt 0) r,
          mkWorld (snd (sqlite3_finalize (stmt (d r)) (db w)))
                  (calls w ++ [CallFinalize (stmt (d r))])).
Proof.
  unfold finalize, do_finalize, call. destruct (stmt (d r) =? 0); [reflexivity|].
  destruct (sqlite3_finalize (stmt (d r)) (db w)); reflexivity.
Qed.

(** X1. cleanup leaves the cursor without statement, columns or pending
    lookahead (the cached first row is kept), finalizes the statement at
    most once, and a second cleanup or finalize does not call the engine. *)
Theorem cleanup_releases_once (r : SQLiteResult) (w : World) :
  let '(r1, w1) := cleanup r w in
  stmt (d r1) = 0
  /\ rInf (d r1) = []
  /\ skipRow (d r1) = false
  /\ skippedStatus (d r1) = false
  /\ firstRow (d r1) = firstRow (d r)
  /\ calls w1 = calls w ++ (if stmt (d r) =? 0 then [] else [CallFinalize (stmt (d r))])
  /\ forall w2, snd (cleanup r1 w2) = w2 /\ snd (finalize r1 w2) = w2.
Proof.
  unfold cleanup. rewrite finalize_cases.
  destruct (stmt (d r) =? 0) eqn:Hs; simpl.
  - apply Z.eqb_eq in Hs. rewrite app_nil_r.
    repeat split; try reflexivity; try assumption;
      rewrite finalize_cases; simpl; rewrite Hs; reflexivity.
  - repeat split; rewrite finalize_cases; reflexivity.
Qed.

(** X2. On an open connection prepare finalizes the statement that the
    cursor holds before it compiles the new text, and clears the columns and
    the lookahead. It succeeds exactly when the engine accepts the text and
    leaves nothing but white space after the first statement; otherwise the
    cursor ends without statement (a compiled one is finalized) and with a
    StatementError, whose code is SQLITE_MISUSE for a rejected remainder. *)
Theorem prepare_replaces_statement (drv : QSqlDriver) (query : string)
    (r : SQLiteResult) (w : World) :
  isOpen drv = true ->
  isOpenError drv = false ->
  let old := stmt (d r) in
  let w0 := snd (finalize r w) in
  let compiled := sqlite3_prepare16_v2 (access (d r)) query (db w0) in
  let res := fst (fst (fst compiled)) in
  let new := snd (fst (fst compiled)) in
  let blank := match snd (fst compiled) with
               | Some tail => QStr.trimmedIsEmpty tail
               | None => true
               end in
  let accepted := (res =? SQLITE_OK) && blank in
  exists r' w',
    prepare (Some drv) query r w = (accepted, r', w')
    /\ calls w'
       = calls w ++ (if old =? 0 then [] else [CallFinalize old])
                 ++ [CallPrepare (access (d r)) query]
                 ++ (if accepted || (new =? 0) then [] else [CallFinalize new])
    /\ stmt (d r') = (if accepted then new else 0)
    /\ rInf (d r') = [] /\ skipRow (d r') = false /\ skippedStatus (d r') = false
    /\ isSelect (q r') = false
    /\ (accepted = false ->
        errorType (lastError (q r')) = StatementError
        /\ number (lastError (q r')) = (if res =? SQLITE_OK then SQLITE_MISUSE else res)).
Proof.
  intros Hopen Herr. cbv zeta.
  unfold prepare. rewrite Hopen, Herr. simpl negb. cbv iota.
  unfold cleanup, do_prepare. rewrite !finalize_cases.
  destruct (stmt (d r) =? 0) eqn:Hold; simpl.
  all: match goal with |- context [sqlite3_prepare16_v2 ?a ?t ?s] =>
         destruct (sqlite3_prepare16_v2 a t s) as [[[res new] tail] db1]
       end; simpl.
  all: destruct (res =? SQLITE_OK) eqn:Hres; simpl;
       [destruct tail as [tail|]; [destruct (QStr.trimmedIsEmpty tail)|]; simpl|].
  all: rewrite ?finalize_cases; simpl.
  all: try (destruct (new =? 0) eqn:Hnew; simpl).
  all: eexists _, _; (split; [reflexivity|]); simpl.
  all: rewrite ?app_nil_r, <- ?app_assoc; simpl.
  all: repeat split; try reflexivity; try discriminate;
       try (apply Z.eqb_eq; assumption).
Qed.

(** *** Binding *)

Lemma bindCalls_lookup (s : Z) (values : list QVariant) (i : Z) (j : nat) (v : QVariant) :
  values !! j = Some v ->
  bindCalls s i values !! j = Some (CallBind s (i + Z.of_nat j + 1) (bindArg v)).
Proof.
  revert i j; induction values as [|x values IH]; intros i j Hj; [discriminate|].
  destruct j as [|j]; simpl in *.
  - injection Hj as ->. rewrite Z.add_0_r. reflexivity.
  - rewrite (IH (i + 1) j Hj). do 2 f_equal. lia.
Qed.

Lemma bindValues_calls (values : list QVariant) (i : Z) (r : SQLiteResult) (w : World) :
  let s := stmt (d r) in
  exists k ok r1 w1,
    bindValues i values r w = (ok, r1, w1)
    /\ (k <= length values)%nat
    /\ calls w1 = calls w ++ take k (bindCalls s i values)
                  ++ (if ok then [] else if s =? 0 then [] else [CallFinalize s])
    /\ (ok = true -> k = length values /\ r1 = r)
    /\ (ok = false ->
        (0 < k)%nat /\ stmt (d r1) = 0 /\ rInf (d r1) = rInf (d r)
        /\ errorType (lastError (q r1)) = StatementError
        /\ driverText (lastError (q r1))
           = translate "SQLiteResult" "Unable to bind parameters").
Proof.
  intros s. revert i w; induction values as [|value values IH]; intros i w; simpl.
  - exists 0%nat, true, r, w. simpl. rewrite app_nil_r.
    repeat split; try reflexivity; try lia; discriminate.
  - unfold do_bind, call. fold s.
    destruct (sqlite3_bind s (i + 1) (bindArg value) (db w)) as [res db1].
    destruct (res =? SQLITE_OK); simpl.
    + destruct (IH (i + 1) (mkWorld db1 (calls w ++ [CallBind s (i + 1) (bindArg value)])))
        as (k & ok & r1 & w1 & Heq & Hk & Hcalls & Hok & Hfail).
      exists (S k), ok, r1, w1. rewrite Heq. simpl in Hcalls. simpl.
      rewrite Hcalls, <- app_assoc. simpl.
      split; [reflexivity|]. split; [lia|]. split; [reflexivity|].
      split; [intros H; destruct (Hok H); split; [lia | assumption]|].
      intros H. destruct (Hfail H) as (? & ? & ? & ? & ?). repeat split; try assumption. lia.
    + rewrite finalize_cases. simpl. fold s.
      exists 1%nat.
      destruct (s =? 0) eqn:Hs; eexists false, _, _; (split; [reflexivity|]); simpl;
        rewrite ?app_nil_r, <- ?app_assoc; simpl;
        repeat split; try reflexivity; try lia; try discriminate;
        try (apply Z.eqb_eq; exact Hs).
Qed.

Lemma bindValues_bound (values : list QVariant) (i : Z) (r : SQLiteResult)
    (s0 bound : DB) (log : list Call) :
  bindAll (stmt (d r)) i values s0 = Some bound ->
  bindValues i values r (mkWorld s0 log)
  = (true, r, mkWorld bound (log ++ bindCalls (stmt (d r)) i values)).
Proof.
  revert i s0 log; induction values as [|value values IH]; intros i s0 log; simpl.
  - intros Heq. injection Heq as ->. rewrite app_nil_r. reflexivity.
  - unfold do_bind, call. simpl db.
    destruct (sqlite3_bind (stmt (d r)) (i + 1) (bindArg value) s0) as [res s1].
    destruct (res =? SQLITE_OK); [|discriminate].
    intros Hrest. simpl. rewrite (IH _ _ _ Hrest), <- app_assoc. reflexivity.
Qed.

Lemma bindValues_refused (before after : list QVariant) (value : QVariant) (i : Z)
    (r : SQLiteResult) (s0 reached failed : DB) (res : Z) (log : list Call) :
  bindAll (stmt (d r)) i before s0 = Some reached ->
  sqlite3_bind (stmt (d r)) (i + Z.of_nat (length before) + 1) (bindArg value) reached
  = (res, failed) ->
  res <> SQLITE_OK ->
  bindValues i (before ++ value :: after) r (mkWorld s0 log)
  = (let '(r1, w1) :=
       finalize (on_q (setLastError
                         (mkQSqlError (translate "SQLiteResult" "Unable to bind parameters")
                                      (sqlite3_errmsg16 (access (d r)) failed)
                                      StatementError res)) r)
                (mkWorld failed (log ++ bindCalls (stmt (d r)) i (before ++ [value]))) in
     (false, r1, w1)).
Proof.
  revert i s0 log; induction before as [|b before IH]; intros i s0 log Heq Hbind Hres.
  - assert (Hi : i + Z.of_nat (length (@nil QVariant)) + 1 = i + 1) by (simpl; lia).
    rewrite Hi in Hbind. simpl in Heq. injection Heq as ->.
    simpl. unfold do_bind, call. simpl db. rewrite Hbind.
    destruct (Z.eqb_spec res SQLITE_OK) as [|_]; [contradiction|]. reflexivity.
  - assert (Hi : i + Z.of_nat (length (b :: before)) + 1
                 = i + 1 + Z.of_nat (length before) + 1) by (simpl length; lia).
    rewrite Hi in Hbind. simpl in Heq. simpl. unfold do_bind, call. simpl db.
    destruct (sqlite3_bind (stmt (d r)) (i + 1) (bindArg b) s0) as [rc s1].
    destruct (rc =? SQLITE_OK); [|discriminate]. simpl.
    rewrite (IH _ _ _ Heq Hbind Hres), <- app_assoc. reflexivity.
Qed.

(** X3. When the reset succeeded and the number of values is the
    placeholder count, execute binds the values in order at the positions
    1, 2, ... (the bind function chosen by the value).  When every bind
    returns SQLITE_OK, every value is bound, execute goes on, and the cursor
    is as the reset left it.  When the bind of a value is the first that
    returns another code, no later value is bound: the statement is
    finalized, the last error is the StatementError "Unable to bind
    parameters" with that code and the engine's message, and execute
    returns false. *)
Theorem exec_binds_in_order (r : SQLiteResult) (w : World) :
  let s := stmt (d r) in
  let values := boundValues (q r) in
  let rewound := sqlite3_reset s (db w) in
  fst rewound = SQLITE_OK ->
  sqlite3_bind_parameter_count s (snd rewound) = length values ->
  (forall bound,
     bindAll s 0 values (snd rewound) = Some bound ->
     exec_rebind r w
     = (true, beforeReset r,
        mkWorld bound (calls w ++ [CallReset s] ++ bindCalls s 0 values)))
  /\ (forall before value after reached res failed,
        values = before ++ value :: after ->
        bindAll s 0 before (snd rewound) = Some reached ->
        sqlite3_bind s (Z.of_nat (length before) + 1) (bindArg value) reached
        = (res, failed) ->
        res <> SQLITE_OK ->
        exists r1 w1,
          exec_rebind r w = (false, r1, w1)
          /\ calls w1 = calls w ++ [CallReset s] ++ bindCalls s 0 (before ++ [value])
                        ++ (if s =? 0 then [] else [CallFinalize s])
          /\ db w1 = (if s =? 0 then failed else snd (sqlite3_finalize s failed))
          /\ stmt (d r1) = 0
          /\ rInf (d r1) = []
          /\ lastError (q r1)
             = mkQSqlError (translate "SQLiteResult" "Unable to bind parameters")
                           (sqlite3_errmsg16 (access (d r)) failed) StatementError res)
  /\ (forall j v, values !! j = Some v ->
                  bindCalls s 0 values !! j
                  = Some (CallBind s (Z.of_nat j + 1) (bindArg v))).
Proof.
  intros s values rewound Hreset Hcount.
  assert (Hunfold : exec_rebind r w
                    = bindValues 0 values (beforeReset r)
                        (mkWorld (snd rewound) (calls w ++ [CallReset s]))).
  { rewrite exec_rebind_unfold. cbv zeta. unfold do_reset, call. fold s values.
    subst rewound. destruct (sqlite3_reset s (db w)) as [res db1].
    simpl in Hreset, Hcount. subst res. simpl negb. cbv iota. simpl db.
    rewrite Hcount, Nat.eqb_refl. reflexivity. }
  split; [|split].
  - intros bound Hbound. rewrite Hunfold.
    rewrite (bindValues_bound values 0 (beforeReset r) _ bound _ Hbound).
    rewrite stmt_beforeReset. fold s. rewrite <- app_assoc. reflexivity.
  - intros before value after reached res failed Hvalues Hbefore Hbind Hres.
    rewrite Hunfold, Hvalues.
    rewrite (bindValues_refused before after value 0 (beforeReset r) _ reached failed res _
               Hbefore Hbind Hres).
    rewrite finalize_cases. simpl stmt. fold s.
    destruct (s =? 0) eqn:Hs; eexists _, _; (split; [reflexivity|]); simpl;
      rewrite ?app_nil_r, <- ?app_assoc;
      repeat split; try reflexivity.
    apply Z.eqb_eq. exact Hs.
  - intros j v Hj. rewrite (bindCalls_lookup s values 0 j v Hj). reflexivity.
Qed.

Lemma exec_rebind_failed (r r1 : SQLiteResult) (w w1 : World) :
  exec_rebind r w = (false, r1, w1) ->
  isValid (lastError (q r1)) = true /\ rInf (d r1) = [].
Proof.
  rewrite exec_rebind_unfold. cbv zeta. unfold do_reset, call.
  destruct (sqlite3_reset (stmt (d r)) (db w)) as [res db1].
  destruct (negb (res =? SQLITE_OK)).
  - rewrite finalize_cases.
    destruct (stmt (d _) =? 0); intros Heq; injection Heq as <- <-; split; reflexivity.
  - destruct (_ =? _)%nat.
    + match goal with |- bindValues ?i ?vs ?r0 ?w0 = _ -> _ =>
        destruct (bindValues_calls vs i r0 w0)
          as (k & ok & r' & w' & Heq & _ & _ & _ & Hfail)
      end.
      rewrite Heq. intros H. injection H as -> -> ->.
      destruct (Hfail eq_refl) as (_ & _ & Hinf & Hty & _).
      split; [unfold isValid; rewrite Hty; reflexivity | exact Hinf].
    + intros Heq. injection Heq as <- <-. split; reflexivity.
Qed.

(** X4. Whenever execute returns, it returns true exactly when the cursor
    is left without a valid last error; a successful execute leaves the
    cursor active, and the record that the cursor then reports is the
    columns found, while after a failed execute it is empty. *)
Theorem exec_outcome (r r' : SQLiteResult) (w w' : World) (ok : bool) :
  exec r w = Some (ok, r', w') ->
  ok = negb (isValid (lastError (q r')))
  /\ (ok = true -> isActive (q r') = true)
  /\ resultRecord r' = (if ok then rInf (d r') else []).
Proof.
  unfold exec. destruct (exec_rebind r w) as [[okb r1] w1] eqn:Hrebind.
  destruct okb.
  - unfold exec_lookahead.
    destruct (fetchNext TheFirstRow 0 true r1 w1) as [[[[status vs] r2] w2]|];
      [|discriminate].
    simpl. unfold resultRecord.
    destruct (isValid (lastError (q r2))) eqn:Hvalid;
      intros Heq; injection Heq as <- <- <-; simpl; rewrite Hvalid;
      (split; [reflexivity|]); (split; [auto|]); [reflexivity|].
    destruct (rInf (d r2)); reflexivity.
  - intros Heq. injection Heq as <- <- <-.
    destruct (exec_rebind_failed _ _ _ _ Hrebind) as [Hvalid Hinf].
    rewrite Hvalid. unfold resultRecord. rewrite Hinf.
    split; [reflexivity|]. split; [discriminate|].
    destruct (negb (isActive (q r1)) || negb (isSelect (q r1))); reflexivity.
Qed.

(** *** Reading a row *)

Lemma columnValue_cellValue (s : Z) (i : nat) (policy : NumericalPrecisionPolicy)
    (w : World) :
  columnValue s (Z.of_nat i) policy w
  = (cellValue s policy (db w) i,
     mkWorld (db w) (calls w ++ [CallColumnType s (Z.of_nat i)])).
Proof. reflexivity. Qed.

(** X5. A value read from a row is null exactly when the engine reports
    the storage class NULL for the column, or the class BLOB with a null
    pointer for the bytes (a BLOB of length zero); it is then a null String
    in the first case and a null byte array in the second; no value read is
    an invalid variant. *)
Theorem cellValue_null (s : Z) (policy : NumericalPrecisionPolicy) (dbs : DB) (i : nat) :
  let v := cellValue s policy dbs i in
  let class := sqlite3_column_type s (Z.of_nat i) dbs in
  let nullBlob :=
    (class =? SQLITE_BLOB)
    && match sqlite3_column_blob s (Z.of_nat i) dbs with
       | None => true
       | Some _ => false
       end in
  isNull v = (class =? SQLITE_NULL) || nullBlob
  /\ (if isNull v then v = QVNull (if nullBlob then TByteArray else TString)
      else v <> QVInvalid).
Proof.
  unfold cellValue, columnValue, do_column_type, call. simpl.
  set (t := sqlite3_column_type s (Z.of_nat i) dbs).
  destruct (Z.eqb_spec t SQLITE_BLOB) as [->|_].
  { destruct (sqlite3_column_blob s (Z.of_nat i) dbs); simpl;
      repeat split; try reflexivity; try discriminate; eauto. }
  destruct (Z.eqb_spec t SQLITE_INTEGER) as [->|_];
    [simpl; repeat split; try reflexivity; try discriminate; eauto|].
  destruct (Z.eqb_spec t SQLITE_FLOAT) as [->|_];
    [destruct policy; simpl; repeat split; try reflexivity; try discriminate; eauto|].
  destruct (t =? SQLITE_NULL); simpl;
    repeat split; try reflexivity; try discriminate; eauto.
Qed.

Lemma fetchRow_caller (idx : nat) (m : nat) :
  forall (k : nat) (row : ValueCache) (r : SQLiteResult) (w : World),
    (idx + k + m <= length row)%nat ->
    fetchRow (CallerRow row) (Z.of_nat idx) (seq k m) r w
    = Some (CallerRow
              (take (idx + k) row
               ++ map (cellValue (stmt (d r)) (numericalPrecisionPolicy (q r)) (db w))
                      (seq k m)
               ++ drop (idx + k + m) row),
            r,
            mkWorld (db w)
                    (calls w ++ map (fun i => CallColumnType (stmt (d r)) (Z.of_nat i))
                                    (seq k m))).
Proof.
  induction m as [|m IH]; intros k row r w Hroom.
  - simpl. rewrite Nat.add_0_r, take_drop, app_nil_r. destruct w; reflexivity.
  - cbn [seq fetchRow map]. rewrite columnValue_cellValue.
    replace (Z.of_nat k + Z.of_nat idx) with (Z.of_nat (idx + k)) by lia.
    unfold assign. rewrite vec_set_in_range by lia. simpl.
    rewrite IH by (rewrite length_insert; lia). simpl.
    set (v := cellValue (stmt (d r)) (numericalPrecisionPolicy (q r)) (db w) k).
    rewrite <- app_assoc. simpl.
    replace (idx + S k)%nat with (S (idx + k)) by lia.
    rewrite (take_S_r _ _ v) by (apply list_lookup_insert_eq; lia).
    rewrite take_insert_ge by lia.
    rewrite drop_insert_lt by lia.
    rewrite <- app_assoc. simpl.
    replace (idx + k + S m)%nat with (S (idx + k + m)) by lia.
    reflexivity.
Qed.

(** X6. A fetchNext whose step finds a row, on a cursor that knows its
    columns, writes the values of the columns into the caller's row from
    position idx on, leaves the rest of that row as it was, steps once and
    asks the storage class of each column once. *)
Theorem gotoNext_row_at_offset (row : ValueCache) (idx : nat) (r : SQLiteResult)
    (w : World) :
  let s := stmt (d r) in
  let stepped := sqlite3_step s (db w) in
  let n := length (rInf (d r)) in
  skipRow (d r) = false ->
  s <> 0 ->
  fst stepped = SQLITE_ROW ->
  rInf (d r) <> [] ->
  (idx + n <= length row)%nat ->
  gotoNext row (Z.of_nat idx) r w
  = Some (true,
          take idx row
          ++ map (cellValue s (numericalPrecisionPolicy (q r)) (snd stepped)) (seq 0 n)
          ++ drop (idx + n) row,
          on_d (set_skipRow false) r,
          mkWorld (snd stepped)
                  (calls w ++ [CallStep s]
                   ++ map (fun i => CallColumnType s (Z.of_nat i)) (seq 0 n))).
Proof.
  intros s stepped n Hskip Hs Hrow Hinf Hroom. unfold gotoNext.
  rewrite (fetchNext_unfold _ _ _ _ _ Hskip). cbv zeta.
  unfold beforeStep. fold s. apply Z.eqb_neq in Hs. simpl stmt. fold s. rewrite Hs.
  unfold do_step, call. subst stepped.
  destruct (sqlite3_step s (db w)) as [rc db1]. simpl in Hrow. subst rc.
  change (SQLITE_ROW =? SQLITE_ROW) with true. cbv iota.
  assert (Hne : isEmptyRecord (rInf (d r)) = false)
    by (destruct (rInf (d r)); [congruence | reflexivity]).
  simpl rInf. rewrite Hne.
  replace (Z.of_nat idx <? 0) with false by (symmetry; apply Z.ltb_ge; lia).
  simpl andb. cbv iota. fold n.
  rewrite (fetchRow_caller idx n 0) by lia.
  simpl. rewrite Nat.add_0_r, <- app_assoc. reflexivity.
Qed.

(** X7. With a negative index (and no initial fetch) a row that the step
    finds is not read: fetchNext returns true, steps once and leaves the
    caller's row untouched. *)
Theorem gotoNext_negative_index (row : ValueCache) (idx : Z) (r : SQLiteResult)
    (w : World) :
  let s := stmt (d r) in
  let stepped := sqlite3_step s (db w) in
  skipRow (d r) = false ->
  s <> 0 ->
  fst stepped = SQLITE_ROW ->
  idx < 0 ->
  exists r' w',
    gotoNext row idx r w = Some (true, row, r', w')
    /\ stmt (d r') = s
    /\ db w' = snd stepped
    /\ count isStep (calls w') = S (count isStep (calls w)).
Proof.
  intros s stepped Hskip Hs Hrow Hidx. unfold gotoNext.
  rewrite (fetchNext_unfold _ _ _ _ _ Hskip). cbv zeta.
  unfold beforeStep. simpl stmt. fold s. apply Z.eqb_neq in Hs. rewrite Hs.
  unfold do_step, call. subst stepped.
  destruct (sqlite3_step s (db w)) as [rc db1]. simpl in Hrow. subst rc.
  change (SQLITE_ROW =? SQLITE_ROW) with true. cbv iota.
  apply Z.ltb_lt in Hidx. rewrite Hidx. simpl andb. cbv iota.
  set (r0 := on_d (set_skipRow false) r).
  set (w1 := mkWorld db1 (calls w ++ [CallStep s])).
  assert (Hw1 : count isStep (calls w1) = S (count isStep (calls w)))
    by (unfold w1; simpl; rewrite count_app; unfold count at 2; simpl; lia).
  destruct (isEmptyRecord (rInf (d r0))).
  - pose proof (initColumns_frame false r0 w1) as Hi.
    destruct (initColumns false r0 w1) as [r1 w2].
    destruct Hi as (H1 & _ & _ & _ & H5 & H6).
    exists r1, w2. simpl. repeat split; try assumption; congruence.
  - exists r0, w1. simpl. repeat split; assumption.
Qed.

(** *** What a fetch never does *)

Lemma assign_frame (values values' : Values) (i : Z) (x : QVariant)
    (r r' : SQLiteResult) :
  assign values i x r = Some (values', r') ->
  stmt (d r') = stmt (d r) /\ access (d r') = access (d r).
Proof.
  unfold assign. destruct values as [|row].
  - destruct (vec_set i x (firstRow (d r))); [|discriminate].
    simpl. intros H. injection H as <- <-. split; reflexivity.
  - destruct (vec_set i x row); [|discriminate].
    simpl. intros H. injection H as <- <-. split; reflexivity.
Qed.

Lemma copyFirstRow_frame (cols : list nat) :
  forall (values values' : Values) (r r' : SQLiteResult),
    copyFirstRow values cols r = Some (values', r') ->
    stmt (d r') = stmt (d r) /\ access (d r') = access (d r).
Proof.
  induction cols as [|i cols IH]; intros values values' r r'; simpl.
  - intros H. injection H as <- <-. split; reflexivity.
  - destruct (firstRow (d r) !! i) as [x|]; [|discriminate]. simpl.
    destruct (assign values (Z.of_nat i) x r) as [[values1 r1]|] eqn:Ha; [|discriminate].
    simpl. intros H. destruct (assign_frame _ _ _ _ _ _ Ha) as [E1 E2].
    destruct (IH _ _ _ _ H) as [E3 E4]. split; congruence.
Qed.

Lemma fetchRow_added (cols : list nat) :
  forall (values values' : Values) (idx : Z) (r r' : SQLiteResult) (w w' : World),
    fetchRow values idx cols r w = Some (values', r', w') ->
    stmt (d r') = stmt (d r) /\ access (d r') = access (d r)
    /\ exists added, calls w' = calls w ++ added
                     /\ Forall (fun c => isColumnType c = true) added.
Proof.
  induction cols as [|i cols IH]; intros values values' idx r r' w w'.
  - simpl. intros H. injection H as <- <- <-.
    repeat split. exists []. rewrite app_nil_r. auto.
  - cbn [fetchRow]. rewrite columnValue_cellValue.
    destruct (assign values _ _ r) as [[values1 r1]|] eqn:Ha; [|discriminate].
    simpl. intros H. destruct (assign_frame _ _ _ _ _ _ Ha) as [E1 E2].
    destruct (IH _ _ _ _ _ _ _ H) as (E3 & E4 & added & Hc & Hall).
    split; [congruence|]. split; [congruence|]. simpl in Hc. eexists (_ :: added).
    rewrite Hc, <- app_assoc. split; [reflexivity|].
    constructor; [reflexivity | exact Hall].
Qed.

Lemma initColumns_loop_added (e : bool) (cols : list nat) :
  forall (r : SQLiteResult) (w : World),
    let '(r', w') := initColumns_loop e cols r w in
    stmt (d r') = stmt (d r) /\ access (d r') = access (d r)
    /\ exists added, calls w' = calls w ++ added
                     /\ Forall (fun c => isColumnType c = true) added.
Proof.
  induction cols as [|i cols IH]; intros r w; simpl.
  - repeat split. exists []. rewrite app_nil_r. auto.
  - destruct e; unfold do_column_type, call; simpl;
      match goal with |- context [initColumns_loop _ cols ?r0 ?w0] =>
        specialize (IH r0 w0); destruct (initColumns_loop _ cols r0 w0) as [r' w']
      end;
      destruct IH as (H1 & H2 & added & Hc & Hall); simpl in *.
    + repeat split; try assumption. exists added. auto.
    + repeat split; try assumption. eexists (_ :: added).
      rewrite Hc, <- app_assoc. split; [reflexivity|].
      constructor; [reflexivity | exact Hall].
Qed.

Lemma initColumns_added (e : bool) (r : SQLiteResult) (w : World) :
  let '(r', w') := initColumns e r w in
  stmt (d r') = stmt (d r) /\ access (d r') = access (d r)
  /\ exists added, calls w' = calls w ++ added
                   /\ Forall (fun c => isColumnType c = true) added.
Proof.
  unfold initColumns.
  destruct (Z.of_nat (sqlite3_column_count (stmt (d r)) (db w)) <=? 0).
  - repeat split. exists []. rewrite app_nil_r. auto.
  - match goal with |- context [initColumns_loop e ?cols ?r0 ?w0] =>
      pose proof (initColumns_loop_added e cols r0 w0) as H;
      destruct (initColumns_loop e cols r0 w0) as [r' w']
    end.
    exact H.
Qed.

Lemma columnType_calls (added : list Call) :
  Forall (fun c => isColumnType c = true) added ->
  count isStep added = 0%nat
  /\ Forall (fun c => isStep c || isReset c || isColumnType c = true) added.
Proof.
  induction 1 as [|c added Hc _ [IH1 IH2]]; [split; [reflexivity | constructor]|].
  split.
  - unfold count in *. simpl. destruct c; try discriminate. exact IH1.
  - constructor; [rewrite Hc; apply orb_true_r | exact IH2].
Qed.

(** X8. Whenever fetchNext returns, the cursor holds the statement and the
    connection handle it held before; of the logged engine calls (prepare,
    reset, step, finalize, bind, close and the storage-class query) it made
    at most one step, resets and storage-class queries, never a bind, a
    finalize, a prepare or a close; and with a pending lookahead or without
    statement it made none of the logged calls and left the engine state as
    it was.  The accessors that only read the engine (such as the column
    count that line 219 reads, also on a null statement) are not logged, and
    nothing is said of them here. *)
Theorem fetchNext_engine_calls (values values' : Values) (idx : Z) (initialFetch : bool)
    (r r' : SQLiteResult) (w w' : World) (hasRow : bool) :
  fetchNext values idx initialFetch r w = Some (hasRow, values', r', w') ->
  stmt (d r') = stmt (d r)
  /\ access (d r') = access (d r)
  /\ exists added,
       calls w' = calls w ++ added
       /\ Forall (fun c => isStep c || isReset c || isColumnType c = true) added
       /\ (count isStep added <= 1)%nat
       /\ (skipRow (d r) = true \/ stmt (d r) = 0 -> added = [] /\ db w' = db w).
Proof.
  destruct (skipRow (d r)) eqn:Hskip.
  - unfold fetchNext. rewrite Hskip. destruct initialFetch; [discriminate|].
    destruct (copyFirstRow _ _ _) as [[values1 r1]|] eqn:Hc; [|discriminate].
    simpl. intros H. injection H as <- <- <- <-.
    destruct (copyFirstRow_frame _ _ _ _ _ Hc) as [E1 E2]. simpl in E1, E2.
    split; [exact E1|]. split; [exact E2|].
    exists []. rewrite app_nil_r. repeat split; try constructor. unfold count; simpl; lia.
  - rewrite (fetchNext_unfold _ _ _ _ _ Hskip). cbv zeta. rewrite stmt_beforeStep.
    set (r0 := beforeStep initialFetch r w).
    assert (Hr0 : stmt (d r0) = stmt (d r) /\ access (d r0) = access (d r))
      by (split; [apply stmt_beforeStep | apply access_beforeStep]).
    destruct Hr0 as [Hs0 Ha0].
    destruct (stmt (d r) =? 0) eqn:Hs.
    { intros H. injection H as <- <- <- <-. simpl.
      split; [exact Hs0|]. split; [exact Ha0|].
      exists []. rewrite app_nil_r. repeat split; try constructor.
      unfold count; simpl; lia. }
    apply Z.eqb_neq in Hs. unfold do_step, call.
    destruct (sqlite3_step (stmt (d r)) (db w)) as [rc db1].
    set (w1 := mkWorld db1 (calls w ++ [CallStep (stmt (d r))])).
    assert (Hfinish : forall added r2 w2,
              stmt (d r2) = stmt (d r) -> access (d r2) = access (d r) ->
              calls w2 = calls w1 ++ added ->
              Forall (fun c => isStep c || isReset c || isColumnType c = true) added ->
              count isStep added = 0%nat ->
              stmt (d r2) = stmt (d r) /\ access (d r2) = access (d r)
              /\ exists added',
                   calls w2 = calls w ++ added'
                   /\ Forall (fun c => isStep c || isReset c || isColumnType c = true)
                             added'
                   /\ (count isStep added' <= 1)%nat
                   /\ (false = true \/ stmt (d r) = 0 ->
                       added' = [] /\ db w2 = db w)).
    { intros added r2 w2 E1 E2 Hc Hall Hcount. split; [exact E1|]. split; [exact E2|].
      exists (CallStep (stmt (d r)) :: added). unfold w1 in Hc. simpl in Hc.
      rewrite Hc, <- app_assoc. split; [reflexivity|].
      split; [constructor; [reflexivity | exact Hall]|].
      split; [unfold count in *; simpl; lia|].
      intros [Hf | Hz]; [discriminate | contradiction]. }
    destruct (rc =? SQLITE_ROW).
    + pose proof (initColumns_added false r0 w1) as Hi.
      destruct (isEmptyRecord (rInf (d r0)));
        [destruct (initColumns false r0 w1) as [r1 w2] | ].
      * destruct Hi as (E1 & E2 & added & Hc & Hall).
        destruct (columnType_calls _ Hall) as [Hn Hall'].
        destruct ((idx <? 0) && negb initialFetch).
        { intros H. injection H as <- <- <- <-.
          apply (Hfinish added); try assumption; congruence. }
        destruct (fetchRow _ _ _ r1 w2) as [[[values2 r2] w3]|] eqn:Hf; [|discriminate].
        simpl. intros H. injection H as <- <- <- <-.
        destruct (fetchRow_added _ _ _ _ _ _ _ _ Hf) as (E3 & E4 & added2 & Hc2 & Hall2).
        destruct (columnType_calls _ Hall2) as [Hn2 Hall2'].
        apply (Hfinish (added ++ added2)); try congruence.
        -- rewrite Hc2, Hc, <- app_assoc. reflexivity.
        -- apply Forall_app. split; assumption.
        -- rewrite count_app. lia.
      * clear Hi. destruct ((idx <? 0) && negb initialFetch).
        { intros H. injection H as <- <- <- <-.
          apply (Hfinish []); try assumption; try constructor.
          rewrite app_nil_r. reflexivity. }
        destruct (fetchRow _ _ _ r0 w1) as [[[values2 r2] w3]|] eqn:Hf; [|discriminate].
        simpl. intros H. injection H as <- <- <- <-.
        destruct (fetchRow_added _ _ _ _ _ _ _ _ Hf) as (E3 & E4 & added2 & Hc2 & Hall2).
        destruct (columnType_calls _ Hall2) as [Hn2 Hall2'].
        apply (Hfinish added2); try congruence; assumption.
    + destruct (rc =? SQLITE_DONE).
      * pose proof (initColumns_added true r0 w1) as Hi.
        assert (Hdone : forall r1 w2 added,
                  stmt (d r1) = stmt (d r0) -> access (d r1) = access (d r0) ->
                  calls w2 = calls w1 ++ added ->
                  Forall (fun c => isColumnType c = true) added ->
                  (let r2 := on_q (setAt AfterLastRow) r1 in
                   let '(_, w3) := do_reset (stmt (d r2)) w2 in
                   Some (false, values, r2, w3)) = Some (hasRow, values', r', w') ->
                  stmt (d r') = stmt (d r) /\ access (d r') = access (d r)
                  /\ exists added',
                       calls w' = calls w ++ added'
                       /\ Forall (fun c => isStep c || isReset c || isColumnType c = true)
                                 added'
                       /\ (count isStep added' <= 1)%nat
                       /\ (false = true \/ stmt (d r) = 0 ->
                           added' = [] /\ db w' = db w)).
        { intros r1 w2 added E1 E2 Hc Hall. cbv zeta. unfold do_reset, call. simpl.
          destruct (sqlite3_reset (stmt (d r1)) (db w2)) as [rc' db2].
          intros H. injection H as <- <- <- <-.
          destruct (columnType_calls _ Hall) as [Hn Hall'].
          apply (Hfinish (added ++ [CallReset (stmt (d r1))])); simpl; try congruence.
          - rewrite Hc, <- app_assoc. reflexivity.
          - apply Forall_app. split; [exact Hall' | constructor; [reflexivity|constructor]].
          - rewrite count_app, Hn. reflexivity. }
        destruct (isEmptyRecord (rInf (d r0)));
          [destruct (initColumns true r0 w1) as [r1 w2] | ].
        -- destruct Hi as (E1 & E2 & added & Hc & Hall).
           apply (Hdone r1 w2 added); assumption.
        -- apply (Hdone r0 w1 []); try reflexivity; try constructor.
           rewrite app_nil_r. reflexivity.
      * destruct ((rc =? SQLITE_CONSTRAINT) || (rc =? SQLITE_ERROR));
          unfold do_reset, call; simpl; rewrite ?Hs0;
          destruct (sqlite3_reset (stmt (d r)) db1) as [rc' db2];
          intros H; injection H as <- <- <- <-;
          apply (Hfinish [CallReset (stmt (d r))]); simpl;
          try assumption; try reflexivity;
          try (constructor; [reflexivity | constructor]).
Qed.

(** *** The columns of a row *)

Lemma occurs_remove (c : ascii) (s : string) :
  QStrList.occurs c (QStr.remove c s) = false.
Proof.
  unfold QStr.remove. induction s as [|c' s IH]; [reflexivity|]. simpl.
  destruct (Ascii.eqb c' c) eqn:Hc; simpl; [exact IH|]. rewrite Hc. exact IH.
Qed.

Lemma initColumns_loop_row (cols : list nat) :
  forall (r : SQLiteResult) (w : World),
    initColumns_loop false cols r w
    = (on_d (fun p => set_rInf (rInf p ++ map (columnField (stmt p) (db w)) cols) p) r,
       mkWorld (db w)
               (calls w ++ map (fun i => CallColumnType (stmt (d r)) (Z.of_nat i)) cols)).
Proof.
  induction cols as [|i cols IH]; intros r w.
  - simpl. rewrite on_d_id, app_nil_r. destruct w; reflexivity.
  - cbn [initColumns_loop]. unfold do_column_type, call. rewrite IH.
    destruct r as [[] ?]. unfold on_d, set_rInf, columnField. simpl.
    rewrite <- !app_assoc. reflexivity.
Qed.

(** X9. The columns that initColumns makes of a row: one field per column
    of the statement, in order; a field name holds no quote character; the
    field records the storage class of the column; and its type is the one of
    the declared type name whenever the column has one, the storage class
    deciding only for a column without declared type. *)
Theorem initColumns_row_columns (r : SQLiteResult) (w : World) :
  let s := stmt (d r) in
  let n := sqlite3_column_count s (db w) in
  rInf (d r) = [] ->
  let '(r', w') := initColumns false r w in
  length (rInf (d r')) = n
  /\ db w' = db w
  /\ forall i f,
       rInf (d r') !! i = Some f ->
       let declared := sqlite3_column_decltype16 s (Z.of_nat i) (db w) in
       let class := sqlite3_column_type s (Z.of_nat i) (db w) in
       fieldName f = QStr.remove QStr.quote (sqlite3_column_name16 s (Z.of_nat i) (db w))
       /\ QStrList.occurs QStr.quote (fieldName f) = false
       /\ sqlType f = class
       /\ fieldType f = (if QStr.isEmpty declared then typeOfStorageClass class
                         else qGetColumnType declared).
Proof.
  intros s n Hempty. unfold initColumns. fold s n.
  destruct n as [|n'] eqn:Hn.
  - simpl. rewrite Hempty. split; [reflexivity|]. split; [reflexivity|].
    intros i f Hf. discriminate.
  - replace (Z.of_nat (S n') <=? 0) with false by (symmetry; apply Z.leb_gt; lia).
    rewrite initColumns_loop_row. cbn [fst snd db d on_d on_q rInf stmt set_rInf].
    rewrite Hempty. cbn [app]. fold s.
    split; [rewrite length_map, length_seq; reflexivity|]. split; [reflexivity|].
    intros i f Hf. rewrite list_lookup_fmap in Hf.
    destruct (seq 0 (S n') !! i) as [j|] eqn:Hj; [|discriminate].
    apply lookup_seq in Hj as [-> _]. simpl in Hf. injection Hf as <-.
    unfold columnField. cbn [fieldName sqlType fieldType setSqlType newField].
    split; [reflexivity|]. split; [apply occurs_remove|]. split; [reflexivity|].
    destruct (QStr.isEmpty _); reflexivity.
Qed.

End CursorLifecycle.

(** * Further properties of the connection *)

Section ConnectionUse.

Context `{engine : Sqlite3} `{qt : QtBase}.

Lemma close_closed (s : SQLiteDriver) (w : World) :
  isOpen (base (fst (close s w))) = false.
Proof.
  unfold close. destruct (isOpen (base s)) eqn:Hopen; [|exact Hopen].
  destruct (finalizeAll (results s) w) as [rs w0].
  destruct (do_close (driverAccess s) w0) as [res w1]. reflexivity.
Qed.

(** X10. A connection that went through close is inert: a second close, a
    prepare and a reset change nothing and call nothing, the table
    descriptions are empty, and when the connection was open a fetch on any of
    its tracked cursors returns without a call to the engine. *)
Theorem closed_connection_is_inert (s : SQLiteDriver) (w : World) :
  let s' := fst (close s w) in
  isOpen (base s') = false
  /\ (forall w2, close s' w2 = (s', w2))
  /\ (forall query r w2, prepare (Some (base s')) query r w2 = (false, r, w2))
  /\ (forall query r w2, reset (Some (base s')) query r w2 = Some (false, r, w2))
  /\ (forall query tbl, primaryIndex s' query tbl = [] /\ record s' query tbl = [])
  /\ (isOpen (base s) = true ->
      forall r row idx w2 hasRow row' r' w3,
        In r (results s') ->
        gotoNext row idx r w2 = Some (hasRow, row', r', w3) ->
        w3 = w2 /\ stmt (d r') = 0).
Proof.
  intros s'. pose proof (close_closed s w) as Hclosed. fold s' in Hclosed.
  assert (Hprep : forall query r w2, prepare (Some (base s')) query r w2 = (false, r, w2))
    by (intros; unfold prepare; rewrite Hclosed; reflexivity).
  split; [exact Hclosed|].
  split; [intros w2; unfold close; rewrite Hclosed; reflexivity|].
  split; [exact Hprep|].
  split; [intros; unfold reset; rewrite Hprep; reflexivity|].
  split; [intros; unfold primaryIndex, record; rewrite Hclosed; split; reflexivity|].
  intros Hopen r row idx w2 hasRow row' r' w3 Hin.
  assert (Hstmt : stmt (d r) = 0).
  { subst s'. unfold close in Hin. rewrite Hopen in Hin.
    pose proof (finalizeAll_spec (results s) w) as Hf.
    destruct (finalizeAll (results s) w) as [rs w0]. destruct Hf as [-> _].
    destruct (do_close (driverAccess s) w0) as [res w1]. simpl in Hin.
    apply in_map_iff in Hin as (r0 & <- & _). reflexivity. }
  unfold gotoNext. destruct (skipRow (d r)) eqn:Hskip.
  - unfold fetchNext. rewrite Hskip.
    destruct (copyFirstRow _ _ _) as [[values1 r1]|] eqn:Hc; [|discriminate].
    simpl. intros H. injection H as <- <- <- <-.
    destruct (copyFirstRow_frame _ _ _ _ _ Hc) as [E1 _]. simpl in E1.
    split; [reflexivity | congruence].
  - rewrite (fetchNext_unfold _ _ _ _ _ Hskip). cbv zeta.
    unfold beforeStep. simpl stmt. rewrite Hstmt. simpl.
    intros H. injection H as <- <- <- <-. split; [reflexivity | exact Hstmt].
Qed.

(** *** Table descriptions *)

Lemma indexOf_absent (c : ascii) (a : string) :
  QStrList.occurs c a = false -> QStr.indexOf c a = -1.
Proof.
  induction a as [|x a IH]; [reflexivity|]. simpl.
  destruct (Ascii.eqb x c); [discriminate|]. simpl. intros H. rewrite (IH H). reflexivity.
Qed.

Lemma indexOf_first (c : ascii) (a b : string) :
  QStrList.occurs c a = false ->
  QStr.indexOf c (String.append a (String c b)) = Z.of_nat (String.length a).
Proof.
  induction a as [|x a IH]; simpl.
  - rewrite Ascii.eqb_refl. reflexivity.
  - destruct (Ascii.eqb x c); [discriminate|]. simpl. intros H. rewrite (IH H).
    replace (Z.of_nat (String.length a) <? 0) with false
      by (symmetry; apply Z.ltb_ge; lia).
    lia.
Qed.

Lemma left_append (a b : string) : QStr.left (String.length a) (String.append a b) = a.
Proof. induction a as [|x a IH]; simpl; [destruct b|rewrite IH]; reflexivity. Qed.

Lemma drop_append (a b : string) : QStr.drop (String.length a) (String.append a b) = b.
Proof. induction a as [|x a IH]; simpl; [destruct b; reflexivity | exact IH]. Qed.

Lemma length_append (a b : string) :
  String.length (String.append a b) = (String.length a + String.length b)%nat.
Proof. induction a as [|x a IH]; simpl; [|rewrite IH]; reflexivity. Qed.

Lemma mid_after (c : ascii) (a b : string) :
  QStr.mid (Z.of_nat (String.length a) + 1) (String.append a (String c b)) = b.
Proof.
  unfold QStr.mid. rewrite length_append. simpl String.length.
  replace (Z.of_nat (String.length a + S (String.length b)) <? Z.of_nat (String.length a) + 1)
    with false by (symmetry; apply Z.ltb_ge; lia).
  replace (Z.to_nat (Z.of_nat (String.length a) + 1)) with (String.length (String.append a (String c EmptyString)))
    by (rewrite length_append; simpl; lia).
  replace (String.append a (String c b))
    with (String.append (String.append a (String c EmptyString)) b)
    by (rewrite append_assoc; reflexivity).
  apply drop_append.
Qed.

(** X11. The text that qGetTableInfo runs: a name without dot is escaped as
    a whole, and a qualified name is cut at its first dot, the schema going
    in front of table_info as it is and the rest being escaped as the
    table. *)
Theorem tableInfoQuery_split (name schema table : string) :
  (QStrList.occurs QStr.dot name = false ->
   tableInfoQuery name
   = String.append "PRAGMA table_info ("
       (String.append (_q_escapeIdentifier name) ")"))
  /\ (QStrList.occurs QStr.dot schema = false ->
      tableInfoQuery (String.append schema (String QStr.dot table))
      = String.append "PRAGMA "
          (String.append schema
             (String.append ".table_info ("
                (String.append (_q_escapeIdentifier table) ")")))).
Proof.
  split; intros Hdot; unfold tableInfoQuery.
  - rewrite (indexOf_absent _ _ Hdot). reflexivity.
  - rewrite (indexOf_first _ _ table Hdot).
    replace (Z.of_nat (String.length schema) >? -1) with true
      by (symmetry; apply Z.gtb_lt; lia).
    rewrite Nat2Z.id, left_append, mid_after.
    unfold QStr.append. rewrite !append_assoc. reflexivity.
Qed.

Lemma sublist_map_filter {A B : Type} (f : A -> B) (p : A -> bool) (l : list A) :
  sublist (map f (List.filter p l)) (map f l).
Proof.
  induction l as [|x l IH]; simpl; [constructor|].
  destruct (p x); simpl; [apply sublist_skip | apply sublist_cons]; exact IH.
Qed.

(** X12. On an open connection record describes every column of the table,
    in the order of the table description, with its name, whether it is
    required and its default value; the primary index is a subsequence of
    that record, and the two are equal when every column belongs to the
    primary key. *)
Theorem record_lists_every_column (s : SQLiteDriver) (query : string -> list TableInfoRow)
    (tbl : string) :
  let table := if isIdentifierEscaped tbl then stripDelimiters tbl else tbl in
  let rows := query (tableInfoQuery table) in
  sublist (primaryIndex s query tbl) (record s query tbl)
  /\ (isOpen (base s) = true ->
      map fieldName (record s query tbl) = map ti_name rows
      /\ map required (record s query tbl)
         = map (fun row => Some (negb (ti_notnull row =? 0))) rows
      /\ map defaultValue (record s query tbl) = map ti_dflt_value rows
      /\ (forallb isPrimaryKey rows = true ->
          primaryIndex s query tbl = record s query tbl)).
Proof.
  intros table rows. unfold primaryIndex, record, qGetTableInfo. fold table rows.
  destruct (isOpen (base s)); simpl; [|split; [constructor | discriminate]].
  rewrite !tableInfoLoop_spec. simpl.
  assert (Hall : List.filter (fun _ : TableInfoRow => true) rows = rows)
    by (induction rows as [|x l IH]; simpl; [|rewrite IH]; reflexivity).
  rewrite Hall. split; [apply sublist_map_filter|]. intros _.
  assert (Hfields : forall row,
            fieldName (fieldOfRow row) = ti_name row
            /\ required (fieldOfRow row) = Some (negb (ti_notnull row =? 0))
            /\ defaultValue (fieldOfRow row) = ti_dflt_value row).
  { intros row. unfold fieldOfRow.
    destruct (negb (ti_pk row =? 0) && String.eqb (QStr.toLower (ti_type row)) "integer");
      repeat split; reflexivity. }
  rewrite !map_map.
  split; [apply map_ext; intros row; apply Hfields|].
  split; [apply map_ext; intros row; apply Hfields|].
  split; [apply map_ext; intros row; apply Hfields|].
  intros Hpk. f_equal. clear Hall.
  induction rows as [|x l IH]; [reflexivity|]. simpl in *.
  apply andb_prop in Hpk as [Hx Hl]. rewrite Hx, (IH Hl). reflexivity.
Qed.

End ConnectionUse.

(** * Opening *)

Section OpeningProperties.

Context `{more : Sqlite3More} `{qt : QtBase}.

Lemma applyOption_fields (o : Options) (opt : string) :
  sharedCache (applyOption o opt)
  = sharedCache o || String.eqb opt "QSQLITE_ENABLE_SHARED_CACHE"
  /\ openMode (applyOption o opt)
     = (if String.eqb opt "QSQLITE_OPEN_READONLY" then SQLITE_OPEN_READONLY
        else openMode o)
  /\ timeOut (applyOption o opt)
     = match timeoutOf opt with Some nt => nt | None => timeOut o end.
Proof.
  unfold applyOption, timeoutOf.
  destruct (QStr.startsWith "QSQLITE_BUSY_TIMEOUT=" opt);
    [destruct (toInt (QStr.mid 21 opt))|];
    destruct (String.eqb opt "QSQLITE_OPEN_READONLY");
    destruct (String.eqb opt "QSQLITE_ENABLE_SHARED_CACHE"); simpl;
    rewrite ?orb_true_r, ?orb_false_r; repeat split; reflexivity.
Qed.

Lemma fold_applyOption (opts : list string) :
  forall o : Options,
    let o' := fold_left applyOption opts o in
    sharedCache o'
    = sharedCache o || existsb (fun opt => String.eqb opt "QSQLITE_ENABLE_SHARED_CACHE") opts
    /\ openMode o'
       = (if existsb (fun opt => String.eqb opt "QSQLITE_OPEN_READONLY") opts
          then SQLITE_OPEN_READONLY else openMode o)
    /\ ((Forall (fun opt => timeoutOf opt = None) opts /\ timeOut o' = timeOut o)
        \/ exists before opt after,
             opts = before ++ opt :: after
             /\ timeoutOf opt = Some (timeOut o')
             /\ Forall (fun opt => timeoutOf opt = None) after).
Proof.
  induction opts as [|x opts IH]; intros o; simpl.
  - rewrite orb_false_r. repeat split. left. split; [constructor | reflexivity].
  - destruct (IH (applyOption o x)) as (Hs & Hm & Ht).
    destruct (applyOption_fields o x) as (Hs1 & Hm1 & Ht1).
    split; [rewrite Hs, Hs1, orb_assoc; reflexivity|].
    split.
    { rewrite Hm, Hm1.
      destruct (String.eqb x "QSQLITE_OPEN_READONLY"); simpl; [|reflexivity].
      destruct (existsb (fun opt => String.eqb opt "QSQLITE_OPEN_READONLY") opts);
        reflexivity. }
    destruct Ht as [[Hnone Heq] | (before & opt & after & -> & Hopt & Hafter)].
    + rewrite Ht1 in Heq. destruct (timeoutOf x) as [nt|] eqn:Hx.
      * right. exists [], x, opts. simpl. rewrite Heq. auto.
      * left. split; [constructor; assumption | exact Heq].
    + right. exists (x :: before), opt, after. auto.
Qed.

Lemma split_keeps_out (c sep : ascii) (text : string) :
  QStrList.occurs c text = false ->
  Forall (fun part => QStrList.occurs c part = false) (QStrList.split sep text).
Proof.
  induction text as [|x text IH]; intros Hclean.
  - constructor; [reflexivity | constructor].
  - simpl in Hclean. apply orb_false_elim in Hclean as [Hx Htext].
    specialize (IH Htext). simpl.
    destruct (Ascii.eqb x sep); [constructor; [reflexivity | exact IH]|].
    destruct (QStrList.split sep text) as [|part parts];
      [constructor; [simpl; rewrite Hx; reflexivity | constructor]|].
    inversion IH as [|? ? Hpart Hparts]; subst.
    constructor; [simpl; rewrite Hx; exact Hpart | exact Hparts].
Qed.

(** X13. The connection options: the text is cut at the semicolons after
    its blanks are removed; shared cache is asked for exactly when the token
    QSQLITE_ENABLE_SHARED_CACHE is among the options, the open mode is
    read-only exactly when QSQLITE_OPEN_READONLY is, and read-write with
    create otherwise; the timeout is the one of the last option that sets a
    readable number, 5000 when there is none. Every other token is
    ignored. *)
Theorem parseOptions_settings (conOpts : string) :
  let opts := QStrList.split ";"%char (QStr.remove " "%char conOpts) in
  let o := parseOptions conOpts in
  (sharedCache o = true <-> In "QSQLITE_ENABLE_SHARED_CACHE" opts)
  /\ (openMode o = SQLITE_OPEN_READONLY <-> In "QSQLITE_OPEN_READONLY" opts)
  /\ (openMode o = SQLITE_OPEN_READONLY
      \/ openMode o = Z.lor SQLITE_OPEN_READWRITE SQLITE_OPEN_CREATE)
  /\ ((Forall (fun opt => timeoutOf opt = None) opts /\ timeOut o = 5000)
      \/ exists before opt after,
           opts = before ++ opt :: after
           /\ timeoutOf opt = Some (timeOut o)
           /\ Forall (fun opt => timeoutOf opt = None) after)
  /\ Forall (fun opt => QStrList.occurs " "%char opt = false) opts.
Proof.
  intros opts o. unfold o, parseOptions. fold opts.
  destruct (fold_applyOption opts
              (mkOptions false (Z.lor SQLITE_OPEN_READWRITE SQLITE_OPEN_CREATE) 5000))
    as (Hs & Hm & Ht).
  cbv zeta in Hs, Hm, Ht. simpl sharedCache in Hs. simpl openMode in Hm.
  simpl timeOut in Ht.
  assert (Hin : forall token,
            existsb (fun opt => String.eqb opt token) opts = true <-> In token opts).
  { intros token. rewrite existsb_exists. split.
    - intros (x & Hx & Heq). apply String.eqb_eq in Heq. subst. exact Hx.
    - intros H. exists token. split; [exact H | apply String.eqb_refl]. }
  split; [rewrite Hs; apply Hin|].
  split.
  { rewrite Hm, <- Hin.
    destruct (existsb (fun opt => String.eqb opt "QSQLITE_OPEN_READONLY") opts);
      split; try reflexivity; discriminate. }
  split; [rewrite Hm;
          destruct (existsb (fun opt => String.eqb opt "QSQLITE_OPEN_READONLY") opts);
          auto|].
  split; [exact Ht|].
  apply split_keeps_out. apply occurs_remove.
Qed.

Lemma close_if_open (s : SQLiteDriver) (w : World) :
  (if isOpen (base s) then close s w else (s, w)) = close s w.
Proof. unfold close. destruct (isOpen (base s)); reflexivity. Qed.

(** X14. open closes the connection first when it is open (so its tracked
    cursors are finalized), and makes no further logged call. It succeeds
    exactly when the name is not empty and the engine opens the file, and the
    connection is open afterwards exactly when it succeeded. With an empty
    name nothing else happens. With another name the handle that the engine
    returned is kept; after a success the timeout of the options is set and
    the extension installed; after a failure the connection is in the
    open-error state with a ConnectionError. *)
Theorem open_outcome (name conOpts : string) (s : SQLiteDriver) (w : World) :
  let s0 := fst (close s w) in
  let w0 := snd (close s w) in
  let o := parseOptions conOpts in
  let opened :=
    sqlite3_open_v2 (toUtf8 name) (openMode o)
                    (sqlite3_enable_shared_cache (sharedCache o) (db w0)) in
  let handle := snd (fst opened) in
  let ok := negb (QStr.isEmpty name) && (fst (fst opened) =? SQLITE_OK) in
  exists s' w',
    open name conOpts s w = (ok, s', w')
    /\ isOpen (base s') = ok
    /\ results s' = results s0
    /\ calls w' = calls w0
    /\ (QStr.isEmpty name = true -> s' = s0 /\ w' = w0)
    /\ (QStr.isEmpty name = false ->
        driverAccess s' = handle
        /\ isOpenError (base s') = negb ok
        /\ (ok = true ->
            db w' = installSQLiteExtension handle
                      (sqlite3_busy_timeout handle (timeOut o) (snd opened))
            /\ driverLastError (base s') = driverLastError (base s0))
        /\ (ok = false ->
            db w' = snd opened
            /\ driverLastError (base s')
               = mkQSqlError (translate "SQLiteDriver" "Error opening database")
                             (sqlite3_errmsg16 handle (snd opened))
                             ConnectionError (-1))).
Proof.
  cbv zeta. unfold open. rewrite close_if_open.
  pose proof (close_closed s w) as Hclosed.
  destruct (close s w) as [s0 w0]. simpl fst in *. simpl snd.
  destruct (QStr.isEmpty name) eqn:Hname; simpl negb; simpl andb.
  - exists s0, w0. split; [reflexivity|]. split; [exact Hclosed|].
    repeat split; try reflexivity; discriminate.
  - destruct (sqlite3_open_v2 _ _ _) as [[res handle] s1]. simpl fst. simpl snd.
    destruct (res =? SQLITE_OK); eexists _, _; (split; [reflexivity|]); simpl;
      repeat split; try reflexivity; try discriminate; try assumption.
Qed.

End OpeningProperties.

(** * The end of the rows *)

Section EndOfRows.

Context `{engine : Sqlite3} `{qt : QtBase}.

(** X15. When the step of a fetchNext finds no further row on a cursor that
    knows its columns, fetchNext returns false with the caller's row as it
    was, the position is AfterLastRow, the statement is reset and kept, and
    the last error and the columns are untouched: the end of the rows is not
    an error. *)
Theorem gotoNext_end_of_rows (row : ValueCache) (idx : Z) (r : SQLiteResult) (w : World) :
  let s := stmt (d r) in
  let stepped := sqlite3_step s (db w) in
  let rewound := sqlite3_reset s (snd stepped) in
  skipRow (d r) = false ->
  s <> 0 ->
  fst stepped = SQLITE_DONE ->
  rInf (d r) <> [] ->
  gotoNext row idx r w
  = Some (false, row,
          on_q (setAt AfterLastRow) (on_d (set_skipRow false) r),
          mkWorld (snd rewound) (calls w ++ [CallStep s; CallReset s])).
Proof.
  intros s stepped rewound Hskip Hs Hdone Hinf. unfold gotoNext.
  rewrite (fetchNext_unfold _ _ _ _ _ Hskip). cbv zeta.
  unfold beforeStep. simpl stmt. fold s. apply Z.eqb_neq in Hs. rewrite Hs.
  unfold do_step, do_reset, call. subst rewound stepped.
  destruct (sqlite3_step s (db w)) as [rc db1]. simpl in Hdone. subst rc.
  change (SQLITE_DONE =? SQLITE_ROW) with false.
  change (SQLITE_DONE =? SQLITE_DONE) with true. cbv iota.
  assert (Hne : isEmptyRecord (rInf (d r)) = false)
    by (destruct (rInf (d r)); [congruence | reflexivity]).
  simpl rInf. rewrite Hne. simpl. fold s.
  destruct (sqlite3_reset s db1) as [rc' db2]. simpl.
  rewrite <- app_assoc. reflexivity.
Qed.

End EndOfRows.

(** * The further properties on the scripted engine *)

Import StubMore.

(** A prepare on an open connection, on a cursor that holds statement 5. *)
Lemma prepare_replaces_statement_witness :
  isOpen openDriver = true
  /\ isOpenError openDriver = false
  /\ exists r' w',
       prepare (Some openDriver) "SELECT 1" (pending 5) noRow = (true, r', w')
       /\ calls w' = [CallFinalize 5; CallPrepare 1 "SELECT 1"]
       /\ stmt (d r') = 1
       /\ rInf (d r') = [] /\ skipRow (d r') = false /\ skippedStatus (d r') = false
       /\ isSelect (q r') = false.
Proof.
  assert (H1 : isOpen openDriver = true) by reflexivity.
  assert (H2 : isOpenError openDriver = false) by reflexivity.
  split; [exact H1|]. split; [exact H2|].
  destruct (prepare_replaces_statement openDriver "SELECT 1" (pending 5) noRow H1 H2)
    as (r' & w' & Heq & Hcalls & Hstmt & Hinf & Hskip & Hstatus & Hselect & _).
  exists r', w'. repeat split; assumption.
Defined.

(** Two values for two placeholders, both bound; and three values for three
    placeholders, of which the second is a BLOB that the engine refuses. *)
Lemma exec_binds_in_order_witness :
  let r := cursor 5 [QVInt 1; QVNull TString] in
  let rewound := sqlite3_reset 5 (db twoPlaceholders) in
  let r3 := cursor 5 [QVInt 1; QVByteArray "0123456789"; QVNull TString] in
  let w3 := world (database [] 3) in
  let rewound3 := sqlite3_reset 5 (db w3) in
  (fst rewound = SQLITE_OK
   /\ sqlite3_bind_parameter_count 5 (snd rewound) = length (boundValues (q r))
   /\ exec_rebind r twoPlaceholders
      = (true, beforeReset r,
         mkWorld (set_bound [(1, BindInt 1); (2, BindNull)] (database [] 2))
                 [CallReset 5; CallBind 5 1 (BindInt 1); CallBind 5 2 BindNull]))
  /\ (fst rewound3 = SQLITE_OK
      /\ sqlite3_bind_parameter_count 5 (snd rewound3) = length (boundValues (q r3))
      /\ exists r1 w1,
           exec_rebind r3 w3 = (false, r1, w1)
           /\ calls w1 = [CallReset 5; CallBind 5 1 (BindInt 1);
                          CallBind 5 2 (BindBlob "0123456789"); CallFinalize 5]
           /\ db w1 = set_bound [(1, BindInt 1)] (database [] 3)
           /\ stmt (d r1) = 0
           /\ rInf (d r1) = []
           /\ lastError (q r1)
              = mkQSqlError "Unable to bind parameters" "stub" StatementError SQLITE_TOOBIG).
Proof.
  intros r rewound r3 w3 rewound3.
  assert (H1 : fst rewound = SQLITE_OK) by reflexivity.
  assert (H2 : sqlite3_bind_parameter_count 5 (snd rewound) = length (boundValues (q r)))
    by reflexivity.
  assert (H3 : fst rewound3 = SQLITE_OK) by reflexivity.
  assert (H4 : sqlite3_bind_parameter_count 5 (snd rewound3) = length (boundValues (q r3)))
    by reflexivity.
  assert (H5 : SQLITE_TOOBIG <> SQLITE_OK) by discriminate.
  split.
  - split; [exact H1|]. split; [exact H2|].
    exact (proj1 (exec_binds_in_order r twoPlaceholders H1 H2) _ eq_refl).
  - split; [exact H3|]. split; [exact H4|].
    exact (proj1 (proj2 (exec_binds_in_order r3 w3 H3 H4))
             [QVInt 1] (QVByteArray "0123456789") [QVNull TString]
             _ _ _ eq_refl eq_refl eq_refl H5).
Defined.

(** A BLOB column for which the engine returns the null pointer is read as
    a null byte array. *)
Example blob_without_bytes_is_null :
  let s := mkStub [] SQLITE_OK 0 SQLITE_OK 0 [("data", "BLOB")] [(SQLITE_BLOB, 0)] []
                  "stub" in
  cellValue 5 LowPrecisionDouble s 0 = QVNull TByteArray
  /\ isNull (cellValue 5 LowPrecisionDouble s 0) = true.
Proof. split; reflexivity. Qed.

(** An execute on a statement without rows. *)
Lemma exec_outcome_witness :
  exists r' w',
    exec (cursor 5 []) noRow = Some (true, r', w')
    /\ true = negb (isValid (lastError (q r')))
    /\ (true = true -> isActive (q r') = true)
    /\ resultRecord r' = rInf (d r').
Proof.
  destruct (exec (cursor 5 []) noRow) as [[[ok r'] w']|] eqn:Heq; [|discriminate Heq].
  assert (Hok : ok = true) by (vm_compute in Heq; congruence).
  subst ok. exists r', w'. split; [reflexivity|].
  exact (exec_outcome (cursor 5 []) r' noRow w' true Heq).
Defined.

(** A row read at position 1 of a row of four. *)
Lemma gotoNext_row_at_offset_witness :
  let row := [QVInt 0; QVInvalid; QVInvalid; QVInt 3] in
  let stepped := sqlite3_step 5 (db oneRow) in
  skipRow (d (known 5)) = false
  /\ stmt (d (known 5)) <> 0
  /\ fst stepped = SQLITE_ROW
  /\ rInf (d (known 5)) <> []
  /\ (1 + length (rInf (d (known 5))) <= length row)%nat
  /\ gotoNext row (Z.of_nat 1) (known 5) oneRow
     = Some (true,
             take 1 row
             ++ map (cellValue 5 (numericalPrecisionPolicy (q (known 5))) (snd stepped))
                    (seq 0 (length (rInf (d (known 5)))))
             ++ drop (1 + length (rInf (d (known 5)))) row,
             on_d (set_skipRow false) (known 5),
             mkWorld (snd stepped)
                     (calls oneRow ++ [CallStep 5]
                      ++ map (fun i => CallColumnType 5 (Z.of_nat i))
                             (seq 0 (length (rInf (d (known 5))))))).
Proof.
  intros row stepped.
  assert (H1 : skipRow (d (known 5)) = false) by reflexivity.
  assert (H2 : stmt (d (known 5)) <> 0) by discriminate.
  assert (H3 : fst stepped = SQLITE_ROW) by reflexivity.
  assert (H4 : rInf (d (known 5)) <> []) by discriminate.
  assert (H5 : (1 + length (rInf (d (known 5))) <= length row)%nat) by (simpl; lia).
  split; [exact H1|]. split; [exact H2|]. split; [exact H3|]. split; [exact H4|].
  split; [exact H5|].
  exact (gotoNext_row_at_offset row 1 (known 5) oneRow H1 H2 H3 H4 H5).
Defined.

Example row_read_at_offset :
  match gotoNext [QVInt 0; QVInvalid; QVInvalid; QVInt 3] 1 (known 5) oneRow with
  | Some (hasRow, row, _, _) =>
      hasRow = true /\ row = [QVInt 0; QVLongLong 7; QVString EmptyString; QVInt 3]
  | None => False
  end.
Proof. vm_compute. split; reflexivity. Qed.

(** A fetch with index -1. *)
Lemma gotoNext_negative_index_witness :
  let stepped := sqlite3_step 5 (db oneRow) in
  skipRow (d (known 5)) = false
  /\ stmt (d (known 5)) <> 0
  /\ fst stepped = SQLITE_ROW
  /\ -1 < 0
  /\ exists r' w',
       gotoNext [QVInt 0] (-1) (known 5) oneRow = Some (true, [QVInt 0], r', w')
       /\ stmt (d r') = 5
       /\ db w' = snd stepped
       /\ count isStep (calls w') = S (count isStep (calls oneRow)).
Proof.
  intros stepped.
  assert (H1 : skipRow (d (known 5)) = false) by reflexivity.
  assert (H2 : stmt (d (known 5)) <> 0) by discriminate.
  assert (H3 : fst stepped = SQLITE_ROW) by reflexivity.
  assert (H4 : -1 < 0) by lia.
  split; [exact H1|]. split; [exact H2|]. split; [exact H3|]. split; [exact H4|].
  exact (gotoNext_negative_index [QVInt 0] (-1) (known 5) oneRow H1 H2 H3 H4).
Defined.

(** The calls of a fetch that finds a row. *)
Lemma fetchNext_engine_calls_witness :
  exists values' r' w',
    fetchNext (CallerRow [QVInvalid; QVInvalid]) 0 false (known 5) oneRow
    = Some (true, values', r', w')
    /\ stmt (d r') = stmt (d (known 5))
    /\ access (d r') = access (d (known 5))
    /\ exists added,
         calls w' = calls oneRow ++ added
         /\ Forall (fun c => isStep c || isReset c || isColumnType c = true) added
         /\ (count isStep added <= 1)%nat
         /\ (skipRow (d (known 5)) = true \/ stmt (d (known 5)) = 0 ->
             added = [] /\ db w' = db oneRow).
Proof.
  destruct (fetchNext (CallerRow [QVInvalid; QVInvalid]) 0 false (known 5) oneRow)
    as [[[[hasRow values'] r'] w']|] eqn:Heq; [|discriminate Heq].
  assert (Hrow : hasRow = true) by (vm_compute in Heq; congruence).
  subst hasRow. exists values', r', w'. split; [reflexivity|].
  exact (fetchNext_engine_calls _ _ _ _ _ _ _ _ _ Heq).
Defined.

(** The columns of the first row. *)
Lemma initColumns_row_columns_witness :
  rInf (d (cursor 5 [])) = []
  /\ map fieldType (rInf (d (fst (initColumns false (cursor 5 []) oneRow)))) = [TInt; TString]
  /\ let '(r', w') := initColumns false (cursor 5 []) oneRow in
     length (rInf (d r')) = sqlite3_column_count 5 (db oneRow)
     /\ db w' = db oneRow
     /\ forall i f,
          rInf (d r') !! i = Some f ->
          let declared := sqlite3_column_decltype16 5 (Z.of_nat i) (db oneRow) in
          let class := sqlite3_column_type 5 (Z.of_nat i) (db oneRow) in
          fieldName f
          = QStr.remove QStr.quote (sqlite3_column_name16 5 (Z.of_nat i) (db oneRow))
          /\ QStrList.occurs QStr.quote (fieldName f) = false
          /\ sqlType f = class
          /\ fieldType f = (if QStr.isEmpty declared then typeOfStorageClass class
                            else qGetColumnType declared).
Proof.
  assert (H1 : rInf (d (cursor 5 [])) = []) by reflexivity.
  split; [exact H1|]. split; [reflexivity|].
  exact (initColumns_row_columns (cursor 5 []) oneRow H1).
Defined.

(** A fetch on a cursor of a connection that was closed. *)
Lemma closed_connection_is_inert_witness :
  let w := world failingClose in
  let s' := fst (close connection w) in
  isOpen (base connection) = true
  /\ In (on_d (set_stmt 0) (cursor 2 [])) (results s')
  /\ gotoNext [] 0 (on_d (set_stmt 0) (cursor 2 [])) oneRow
     = Some (false, [],
             on_q (setAt AfterLastRow)
               (on_q (setLastError
                        (mkQSqlError "Unable to fetch row" "No query" ConnectionError (-1)))
                     (on_d (set_stmt 0) (cursor 2 []))),
             oneRow)
  /\ oneRow = oneRow /\ stmt (d (on_d (set_stmt 0) (cursor 2 []))) = 0.
Proof.
  intros w s'.
  assert (H1 : isOpen (base connection) = true) by reflexivity.
  assert (H2 : In (on_d (set_stmt 0) (cursor 2 [])) (results s'))
    by (right; left; reflexivity).
  assert (H3 : gotoNext [] 0 (on_d (set_stmt 0) (cursor 2 [])) oneRow
               = Some (false, [],
                       on_q (setAt AfterLastRow)
                         (on_q (setLastError
                                  (mkQSqlError "Unable to fetch row" "No query"
                                               ConnectionError (-1)))
                               (on_d (set_stmt 0) (cursor 2 []))),
                       oneRow)) by reflexivity.
  split; [exact H1|]. split; [exact H2|]. split; [exact H3|].
  exact (proj2 (proj2 (proj2 (proj2 (proj2 (closed_connection_is_inert connection w)))))
               H1 _ _ _ _ _ _ _ _ H2 H3).
Defined.

(** A plain and a qualified table name. *)
Lemma tableInfoQuery_split_witness :
  QStrList.occurs QStr.dot "feeds" = false
  /\ QStrList.occurs QStr.dot "main" = false
  /\ tableInfoQuery "feeds"
     = String.append "PRAGMA table_info ("
         (String.append (_q_escapeIdentifier "feeds") ")")
  /\ tableInfoQuery (String.append "main" (String QStr.dot "feeds"))
     = String.append "PRAGMA "
         (String.append "main"
            (String.append ".table_info ("
               (String.append (_q_escapeIdentifier "feeds") ")"))).
Proof.
  assert (H1 : QStrList.occurs QStr.dot "feeds" = false) by reflexivity.
  assert (H2 : QStrList.occurs QStr.dot "main" = false) by reflexivity.
  split; [exact H1|]. split; [exact H2|].
  split; [exact (proj1 (tableInfoQuery_split "feeds" "main" "feeds") H1)
         | exact (proj2 (tableInfoQuery_split "feeds" "main" "feeds") H2)].
Defined.

(** The record and the primary index of a table of two columns. *)
Lemma record_lists_every_column_witness :
  let query := fun _ : string => tableInfo in
  isOpen (base connection) = true
  /\ sublist (primaryIndex connection query "feeds") (record connection query "feeds")
  /\ map fieldName (record connection query "feeds") = ["id"; "title"]
  /\ map required (record connection query "feeds") = [Some true; Some false]
  /\ map defaultValue (record connection query "feeds") = [QVInvalid; QVString "none"].
Proof.
  intros query.
  assert (H1 : isOpen (base connection) = true) by reflexivity.
  destruct (record_lists_every_column connection query "feeds") as [Hsub Hopen].
  destruct (Hopen H1) as (Hnames & Hrequired & Hdefault & _).
  split; [exact H1|]. split; [exact Hsub|].
  split; [exact Hnames|]. split; [exact Hrequired | exact Hdefault].
Defined.

(** An open that the engine refuses, and one with an empty name. *)
Lemma open_outcome_witness :
  let s := mkDriver closedDriver 0 [] in
  QStr.isEmpty "locked" = false
  /\ QStr.isEmpty EmptyString = true
  /\ (exists s' w',
        open "locked" "QSQLITE_BUSY_TIMEOUT=250" s noRow = (false, s', w')
        /\ isOpen (base s') = false
        /\ isOpenError (base s') = true
        /\ driverAccess s' = 9
        /\ errorType (driverLastError (base s')) = ConnectionError)
  /\ open EmptyString EmptyString connection noRow
     = (false, fst (close connection noRow), snd (close connection noRow)).
Proof.
  intros s.
  assert (H1 : QStr.isEmpty "locked" = false) by reflexivity.
  assert (H2 : QStr.isEmpty EmptyString = true) by reflexivity.
  split; [exact H1|]. split; [exact H2|]. split.
  - destruct (open_outcome "locked" "QSQLITE_BUSY_TIMEOUT=250" s noRow)
      as (s' & w' & Heq & Hopen & _ & _ & _ & Hname).
    destruct (Hname H1) as (Hhandle & Herror & _ & Hfail).
    destruct (Hfail eq_refl) as [_ Hlast].
    exists s', w'. split; [exact Heq|]. split; [exact Hopen|].
    split; [exact Herror|]. split; [exact Hhandle|]. rewrite Hlast. reflexivity.
  - destruct (open_outcome EmptyString EmptyString connection noRow)
      as (s' & w' & Heq & _ & _ & _ & Hempty & _).
    destruct (Hempty H2) as [-> ->]. exact Heq.
Defined.

Example options_example :
  parseOptions "QSQLITE_OPEN_READONLY ; QSQLITE_BUSY_TIMEOUT = 250;x;QSQLITE_BUSY_TIMEOUT=a"
  = mkOptions false SQLITE_OPEN_READONLY 250.
Proof. reflexivity. Qed.

(** The end of the rows. *)
Lemma gotoNext_end_of_rows_witness :
  let stepped := sqlite3_step 5 (db noRow) in
  let rewound := sqlite3_reset 5 (snd stepped) in
  skipRow (d (known 5)) = false
  /\ stmt (d (known 5)) <> 0
  /\ fst stepped = SQLITE_DONE
  /\ rInf (d (known 5)) <> []
  /\ gotoNext [QVInt 0] 0 (known 5) noRow
     = Some (false, [QVInt 0],
             on_q (setAt AfterLastRow) (on_d (set_skipRow false) (known 5)),
             mkWorld (snd rewound) (calls noRow ++ [CallStep 5; CallReset 5])).
Proof.
  intros stepped rewound.
  assert (H1 : skipRow (d (known 5)) = false) by reflexivity.
  assert (H2 : stmt (d (known 5)) <> 0) by discriminate.
  assert (H3 : fst stepped = SQLITE_DONE) by reflexivity.
  assert (H4 : rInf (d (known 5)) <> []) by discriminate.
  split; [exact H1|]. split; [exact H2|]. split; [exact H3|]. split; [exact H4|].
  exact (gotoNext_end_of_rows [QVInt 0] 0 (known 5) noRow H1 H2 H3 H4).
Defined.

(** * The types of a cursor and of a table description agree *)

Lemma lowerChar_idempotent (c : ascii) :
  QStr.lowerChar (QStr.lowerChar c) = QStr.lowerChar c.
Proof. destruct c as [[] [] [] [] [] [] [] []]; reflexivity. Qed.

Lemma toLower_idempotent (s : string) : QStr.toLower (QStr.toLower s) = QStr.toLower s.
Proof.
  induction s as [|c s IH]; [reflexivity|]. simpl.
  rewrite lowerChar_idempotent, IH. reflexivity.
Qed.

Section TypesAgree.

Context `{engine : Sqlite3}.

(** X16. For a column that has a declared type, the field type that the
    cursor gives it (on a row or on an empty result set) is the one that the
    table description gives a column declared with the same name. *)
Theorem cursor_type_matches_record (s : Z) (dbs : DB) (i : nat) (row : TableInfoRow) :
  sqlite3_column_decltype16 s (Z.of_nat i) dbs = ti_type row ->
  QStr.isEmpty (ti_type row) = false ->
  fieldType (columnField s dbs i) = fieldType (fieldOfRow row)
  /\ fieldType (declaredField s dbs i) = fieldType (fieldOfRow row).
Proof.
  intros Hdecl Hne.
  assert (Hrow : fieldType (fieldOfRow row) = qGetColumnType (ti_type row)).
  { unfold fieldOfRow.
    destruct (negb (ti_pk row =? 0) && String.eqb (QStr.toLower (ti_type row)) "integer");
      simpl; unfold qGetColumnType; rewrite toLower_idempotent; reflexivity. }
  rewrite Hrow. unfold columnField, declaredField. simpl. rewrite Hdecl, Hne.
  split; reflexivity.
Qed.

End TypesAgree.

(** The first column of the scripted statement and a column declared INTEGER. *)
Lemma cursor_type_matches_record_witness :
  let row := mkTableInfoRow "id" "INTEGER" 1 QVInvalid 1 in
  sqlite3_column_decltype16 5 (Z.of_nat 0) (db oneRow) = ti_type row
  /\ QStr.isEmpty (ti_type row) = false
  /\ fieldType (columnField 5 (db oneRow) 0) = fieldType (fieldOfRow row)
  /\ fieldType (declaredField 5 (db oneRow) 0) = fieldType (fieldOfRow row).
Proof.
  intros row.
  assert (H1 : sqlite3_column_decltype16 5 (Z.of_nat 0) (db oneRow) = ti_type row)
    by reflexivity.
  assert (H2 : QStr.isEmpty (ti_type row) = false) by reflexivity.
  split; [exact H1|]. split; [exact H2|].
  exact (cursor_type_matches_record 5 (db oneRow) 0 row H1 H2).
Defined.
